(** * SG2042 SEC platform initialisation: FDT hand-off and I/O resource HOBs

    A shallow embedding of [Silicon/Sophgo/SG2042Pkg/Sec/Platform.c]:
    [AddIoMemoryBaseSizeHob], [PopulateIoResources] and
    [PlatformPeimInitialization], over a model of the services the file
    calls (HobLib, MemoryAllocationLib, libfdt, BaseLib). *)

From Stdlib Require Import ZArith Lia.
From Stdlib.Strings Require Import Byte.
From stdpp Require Import gmap strings list.

Local Open Scope Z_scope.

(** ** Fixed-width integers

    The C types are modelled as [Z]; a conversion to an unsigned type is the
    reduction modulo its range. [UINTN] is 64 bits wide on this platform. *)

Definition UINT16 (z : Z) : Z := z mod 2 ^ 16.
Definition UINT32 (z : Z) : Z := z mod 2 ^ 32.
Definition UINT64 (z : Z) : Z := z mod 2 ^ 64.
Definition UINTN (z : Z) : Z := UINT64 z.

(** The conversion to the signed 32-bit [int], in two's complement. *)
Definition INT32 (z : Z) : Z := (z + 2 ^ 31) mod 2 ^ 32 - 2 ^ 31.

Definition NULL : Z := 0.

(** ** Page macros *)

(** Modelled from the spec: [EFI_PAGE_SIZE], [EFI_PAGE_MASK] and
    [EFI_PAGE_SHIFT] are declared in a header that is not under src/; the
    spec only speaks of "the platform page size". The values are those of
    the UEFI 4 KiB page. *)
Definition EFI_PAGE_SIZE : Z := 0x1000.
Definition EFI_PAGE_MASK : Z := 0xFFF.
Definition EFI_PAGE_SHIFT : Z := 12.

(** Modelled from the spec: the macro [ALIGN_VALUE] is declared in a header
    that is not under src/; the spec has "round size up to the next multiple
    of the platform page size". The expression is
    [Value + ((Alignment - Value) & (Alignment - 1))], taken here over the
    integers; the conversion to the 64-bit type of the variable it is
    assigned to is written at the assignment in [AddIoMemoryBaseSizeHob]. *)
Definition ALIGN_VALUE (Value Alignment : Z) : Z :=
  Value + Z.land (Alignment - Value) (Alignment - 1).

(** Modelled from the spec: the macros [EFI_SIZE_TO_PAGES] and
    [EFI_PAGES_TO_SIZE] are declared in a header that is not under src/; the
    spec has "compute page count covering it". The expressions are
    [(Size >> EFI_PAGE_SHIFT) + ((Size & EFI_PAGE_MASK) ? 1 : 0)] and
    [Pages << EFI_PAGE_SHIFT], on [UINTN]. *)
Definition EFI_SIZE_TO_PAGES (Size : Z) : Z :=
  UINTN (Z.shiftr Size EFI_PAGE_SHIFT
         + (if Z.land Size EFI_PAGE_MASK =? 0 then 0 else 1)).

Definition EFI_PAGES_TO_SIZE (Pages : Z) : Z :=
  UINTN (Z.shiftl Pages EFI_PAGE_SHIFT).

(** ** Byte swapping (BaseLib) *)

(** Modelled from the spec: [SwapBytes64] belongs to BaseLib, which is not
    under src/; the spec has "all multi-byte integers are big-endian in
    storage and must be converted to host order before use". It is built, as
    in BaseLib, from the 16-bit swap [(Value << 8) | (Value >> 8)]. *)
Definition SwapBytes16 (Value : Z) : Z :=
  UINT16 (Z.lor (Z.shiftl Value 8) (Z.shiftr Value 8)).

Definition SwapBytes32 (Value : Z) : Z :=
  let LowerBytes := UINT32 (SwapBytes16 (UINT16 Value)) in
  let HigherBytes := UINT32 (SwapBytes16 (UINT16 (Z.shiftr Value 16))) in
  UINT32 (Z.lor (Z.shiftl LowerBytes 16) HigherBytes).

Definition SwapBytes64 (Operand : Z) : Z :=
  let LowerBytes := UINT64 (SwapBytes32 (UINT32 Operand)) in
  let HigherBytes := UINT64 (SwapBytes32 (UINT32 (Z.shiftr Operand 32))) in
  UINT64 (Z.lor (Z.shiftl LowerBytes 32) HigherBytes).

(** ** Status codes and HOB constants *)

Definition EFI_STATUS : Type := Z.
Definition EFI_SUCCESS : EFI_STATUS := 0.
Definition EFI_UNSUPPORTED : EFI_STATUS := Z.lor 0x8000000000000000 3.

Definition EFI_RESOURCE_MEMORY_MAPPED_IO : Z := 0x00000001.
Definition EFI_RESOURCE_ATTRIBUTE_PRESENT : Z := 0x00000001.
Definition EFI_RESOURCE_ATTRIBUTE_INITIALIZED : Z := 0x00000002.
Definition EFI_RESOURCE_ATTRIBUTE_TESTED : Z := 0x00000004.
Definition EFI_RESOURCE_ATTRIBUTE_UNCACHEABLE : Z := 0x00000400.

Inductive EFI_GUID : Type :=
| gFdtHobGuid
| OtherGuid (n : Z).

(** The records of the hand-off store. *)
Inductive Hob : Type :=
| HobGuidExtension (Name : EFI_GUID) (Data : Z)
| HobFirmwareVolume (BaseAddress Length : Z)
| HobResourceDescriptor
    (ResourceType ResourceAttribute PhysicalStart ResourceLength : Z).

(** ** Flattened device trees (libfdt's view) *)

Definition FDT_ERR_NOTFOUND : Z := 1.
Definition FDT_ERR_NOSPACE : Z := 3.
Definition FDT_ERR_BADOFFSET : Z := 4.
Definition FDT_ERR_BADMAGIC : Z := 9.
Definition FDT_ERR_BADSTRUCTURE : Z := 11.

(** A property of a node: its name and where its value lies in the blob
    (byte offset from the start of the blob, and length in bytes). *)
Record fdt_property : Type := {
  prop_name : string;
  prop_off : Z;
  prop_len : Z
}.

(** A node: the strings of its "compatible" property and its properties. *)
Record fdt_node : Type := {
  node_compatible : list string;
  node_props : list fdt_property
}.

(** A blob as libfdt sees it: what the header check answers (0 for a sound
    header, a negative error otherwise), the total size the header declares,
    the nodes the walk of the structure block reaches, in its order (a
    node's offset is its rank in that order), what the walk answers past the
    last of them ([- FDT_ERR_NOTFOUND] when the block ends as it should, an
    error such as [- FDT_ERR_BADSTRUCTURE] when it is corrupt there), and
    the bytes of the buffer. A tree is called sound when its header
    validates and its structure block ends as it should. *)
Record fdt_blob : Type := {
  fdt_header_status : Z;
  fdt_total : Z;
  fdt_nodes : list fdt_node;
  fdt_struct_end : Z;
  fdt_data : list byte
}.

(** ** The state of the phase *)

(** The hand-off store [Hobs] is listed oldest first; [GuidHobAvailable]
    says whether the store still takes an announcement record; the free pool
    is the [PoolPages] pages below [PoolTop]; [Blobs] maps the address of a
    buffer to the device tree it holds. *)
Record PeiState : Type := {
  Hobs : list Hob;
  GuidHobAvailable : bool;
  PoolTop : Z;
  PoolPages : Z;
  Blobs : gmap Z fdt_blob
}.

Definition set_Hobs (h : list Hob) (st : PeiState) : PeiState :=
  {| Hobs := h; GuidHobAvailable := GuidHobAvailable st;
     PoolTop := PoolTop st; PoolPages := PoolPages st; Blobs := Blobs st |}.

Definition set_Pool (top pages : Z) (st : PeiState) : PeiState :=
  {| Hobs := Hobs st; GuidHobAvailable := GuidHobAvailable st;
     PoolTop := top; PoolPages := pages; Blobs := Blobs st |}.

Definition set_Blobs (m : gmap Z fdt_blob) (st : PeiState) : PeiState :=
  {| Hobs := Hobs st; GuidHobAvailable := GuidHobAvailable st;
     PoolTop := PoolTop st; PoolPages := PoolPages st; Blobs := m |}.

(** Computations of the phase thread the state and may fail to return (a
    loop that runs out of fuel). *)
Definition Pei (A : Type) : Type := PeiState -> option (A * PeiState).

Definition ret {A : Type} (a : A) : Pei A := fun st => Some (a, st).

Definition bind {A B : Type} (c : Pei A) (k : A -> Pei B) : Pei B :=
  fun st => match c st with
            | Some (a, st') => k a st'
            | None => None
            end.

Definition gets {A : Type} (f : PeiState -> A) : Pei A :=
  fun st => Some (f st, st).

Definition modify (f : PeiState -> PeiState) : Pei unit :=
  fun st => Some (tt, f st).

Declare Scope pei_scope.
Delimit Scope pei_scope with pei.
Notation "'let*' x ':=' c 'in' k" := (bind c (fun x => k))
  (at level 10, x pattern, c at level 100, k at level 200) : pei_scope.
Notation "c ';;;' k" := (bind c (fun _ => k))
  (at level 100, k at level 200, right associativity) : pei_scope.

(** ** libfdt *)

(** Modelled from the spec: libfdt is not under src/. The spec has "header
    magic must validate before any other field is trusted", "iterates all
    nodes in the tree whose compatible string matches a caller-supplied
    identifier, in tree order", "testing each node's compatible property
    list for an exact string match" and "the scan ends when no further
    compatible node exists". A buffer that holds no tree fails the header
    check. *)
Definition fdt_check_header (m : gmap Z fdt_blob) (fdt : Z) : Z :=
  match m !! fdt with
  | Some b => fdt_header_status b
  | None => - FDT_ERR_BADMAGIC
  end.

Definition fdt_totalsize (m : gmap Z fdt_blob) (fdt : Z) : Z :=
  match m !! fdt with
  | Some b => UINT32 (fdt_total b)
  | None => 0
  end.

Definition fdt_node_check_compatible (n : fdt_node) (compatible : string)
  : bool :=
  existsb (String.eqb compatible) (node_compatible n).

(** The first node of [ns] after [startoffset] that is compatible, where the
    head of [ns] has offset [offset]; past the last node, what the walk of
    the structure block answers there. A negative [startoffset] starts the
    walk at the root. *)
Fixpoint node_offset_from (ns : list fdt_node) (offset startoffset : Z)
    (compatible : string) (struct_end : Z) : Z :=
  match ns with
  | [] => struct_end
  | n :: ns' =>
      if (startoffset <? offset) && fdt_node_check_compatible n compatible
      then offset
      else node_offset_from ns' (offset + 1) startoffset compatible
                            struct_end
  end.

Definition fdt_node_offset_by_compatible (m : gmap Z fdt_blob) (fdt : Z)
    (startoffset : Z) (compatible : string) : Z :=
  match m !! fdt with
  | Some b =>
      if fdt_header_status b =? 0 then
        if Z.of_nat (length (fdt_nodes b)) <=? startoffset
        then - FDT_ERR_BADOFFSET
        else node_offset_from (fdt_nodes b) 0 startoffset compatible
                              (fdt_struct_end b)
      else fdt_header_status b
  | None => - FDT_ERR_BADMAGIC
  end.

(** A pointer into a blob: the address of the buffer and a byte offset. *)
Definition fdt_pointer : Type := (Z * Z)%type.

Definition fdt_find_prop (n : fdt_node) (name : string)
  : option fdt_property :=
  find (fun p => String.eqb (prop_name p) name) (node_props n).

(** [fdt_getprop] answers the pointer to the value ([None] for NULL) and
    what it stores in [*lenp]: the length, or a negative error. *)
Definition fdt_getprop (m : gmap Z fdt_blob) (fdt : Z) (nodeoffset : Z)
    (name : string) : option fdt_pointer * Z :=
  match m !! fdt with
  | Some b =>
      if fdt_header_status b =? 0 then
        if nodeoffset <? 0 then (None, - FDT_ERR_BADOFFSET) else
        match fdt_nodes b !! Z.to_nat nodeoffset with
        | Some n =>
            match fdt_find_prop n name with
            | Some p => (Some (fdt, prop_off p), prop_len p)
            | None => (None, - FDT_ERR_NOTFOUND)
            end
        | None => (None, - FDT_ERR_BADOFFSET)
        end
      else (None, fdt_header_status b)
  | None => (None, - FDT_ERR_BADMAGIC)
  end.

(** ** Reading the buffer *)

(** The byte at offset [i] of the buffer; what lies outside it reads 0. *)
Definition byte_at (d : list byte) (i : Z) : Z :=
  if i <? 0 then 0 else Z.of_N (Byte.to_N (nth (Z.to_nat i) d x00)).

(** A load of [n] bytes by the little-endian host. *)
Fixpoint load_le (d : list byte) (off : Z) (n : nat) : Z :=
  match n with
  | O => 0
  | S n' => byte_at d off + 256 * load_le d (off + 1) n'
  end.

(** [Reg[Index]] for [UINT64 *Reg]. *)
Definition read_UINT64 (m : gmap Z fdt_blob) (Reg : fdt_pointer) (Index : Z)
  : Z :=
  match m !! Reg.1 with
  | Some b => load_le (fdt_data b) (Reg.2 + 8 * Index) 8
  | None => 0
  end.

(** The [n] bytes at [off] read as one big-endian number, first byte most
    significant. *)
Fixpoint load_be (d : list byte) (off : Z) (n : nat) (acc : Z) : Z :=
  match n with
  | O => acc
  | S n' => load_be d (off + 1) n' (256 * acc + byte_at d off)
  end.

(** The [i]-th big-endian 64-bit word of the value of property [p]. *)
Definition reg_word (b : fdt_blob) (p : fdt_property) (i : Z) : Z :=
  load_be (fdt_data b) (prop_off p + 8 * i) 8 0.

(** The words a property of [prop_len p] bytes holds. *)
Definition reg_words (b : fdt_blob) (p : fdt_property) : list Z :=
  map (fun i => reg_word b p (Z.of_nat i))
      (seq 0 (Z.to_nat (prop_len p / 8))).

(** ** HobLib and MemoryAllocationLib *)

(** Modelled from the spec: HobLib is not under src/. The spec has "appends
    the record to the process-wide resource table consumed by downstream
    memory-map construction; this is an append-only, order-preserving
    table". *)
Definition BuildResourceDescriptorHob
    (ResourceType ResourceAttribute PhysicalStart NumberOfBytes : Z)
  : Pei unit :=
  modify (fun st =>
    set_Hobs (Hobs st ++ [HobResourceDescriptor ResourceType
                            ResourceAttribute PhysicalStart NumberOfBytes])
             st).

Definition BuildFvHob (BaseAddress Length : Z) : Pei unit :=
  modify (fun st =>
    set_Hobs (Hobs st ++ [HobFirmwareVolume BaseAddress Length]) st).

(** Modelled from the spec: HobLib is not under src/. The spec has
    "AnnouncementFailure (record store full or slot already used)". The
    pointer to the data of the new record is its rank in the store; [None]
    is NULL. The data start out as 0. *)
Definition BuildGuidHob (Guid : EFI_GUID) (DataLength : Z)
  : Pei (option nat) :=
  fun st =>
    if GuidHobAvailable st
    then Some (Some (length (Hobs st)),
               set_Hobs (Hobs st ++ [HobGuidExtension Guid 0]) st)
    else Some (None, st).

(** [*FdtHobData = Value]. *)
Definition store_guid_data (FdtHobData : nat) (Value : Z) : Pei unit :=
  modify (fun st =>
    set_Hobs (alter (fun h => match h with
                              | HobGuidExtension g _ =>
                                  HobGuidExtension g Value
                              | _ => h
                              end) FdtHobData (Hobs st)) st).

(** Modelled from the spec: MemoryAllocationLib is not under src/. The spec
    has "acquire a fresh page-aligned allocation of that many pages from the
    permanent memory pool — failure here is fatal to this phase". Pages are
    taken from the top of the pool; NULL is answered when the pool is too
    small (or the block would start at address 0). *)
Definition AllocatePages (Pages : Z) : Pei Z :=
  fun st =>
    if (Pages <=? 0) || (PoolPages st <? Pages)
       || (PoolTop st - Pages * EFI_PAGE_SIZE <=? 0)
    then Some (NULL, st)
    else
      let NewTop := PoolTop st - Pages * EFI_PAGE_SIZE in
      Some (NewTop, set_Pool NewTop (PoolPages st - Pages) st).

(** ** Platform.c *)

Definition AddIoMemoryBaseSizeHob (MemoryBase MemorySize : Z) : Pei unit :=
  (* Align to EFI_PAGE_SIZE *)
  let MemorySize := UINT64 (ALIGN_VALUE MemorySize EFI_PAGE_SIZE) in
  BuildResourceDescriptorHob
    EFI_RESOURCE_MEMORY_MAPPED_IO
    (Z.lor (Z.lor (Z.lor EFI_RESOURCE_ATTRIBUTE_PRESENT
                         EFI_RESOURCE_ATTRIBUTE_INITIALIZED)
                  EFI_RESOURCE_ATTRIBUTE_UNCACHEABLE)
           EFI_RESOURCE_ATTRIBUTE_TESTED)
    MemoryBase
    MemorySize.

Local Open Scope pei_scope.

(** The body of the [while] loop of [PopulateIoResources], entered with the
    current [Node]; every iteration spends one unit of [fuel]. *)
Fixpoint PopulateIoResources_while (fuel : nat) (FdtBase : Z)
    (Compatible : string) (Node : Z) : Pei unit :=
  match fuel with
  | O => fun _ => None
  | S fuel' =>
      if Node =? - FDT_ERR_NOTFOUND then ret tt else
      let* (Reg, LenP) :=
        gets (fun st => fdt_getprop (Blobs st) FdtBase Node "reg") in
      (match Reg with
       | Some Reg =>
           let* Reg0 := gets (fun st => read_UINT64 (Blobs st) Reg 0) in
           let* Reg1 := gets (fun st => read_UINT64 (Blobs st) Reg 1) in
           AddIoMemoryBaseSizeHob (SwapBytes64 Reg0) (SwapBytes64 Reg1) ;;;
           (* PCIe node may have two regions for reg ("reg" and "cfg") *)
           if UINTN LenP >? 2 * 8 then
             let* Reg2 := gets (fun st => read_UINT64 (Blobs st) Reg 2) in
             let* Reg3 := gets (fun st => read_UINT64 (Blobs st) Reg 3) in
             AddIoMemoryBaseSizeHob (SwapBytes64 Reg2) (SwapBytes64 Reg3)
           else ret tt
       | None => ret tt
       end) ;;;
      let* Node :=
        gets (fun st =>
                fdt_node_offset_by_compatible (Blobs st) FdtBase Node
                                              Compatible) in
      PopulateIoResources_while fuel' FdtBase Compatible Node
  end.

Definition PopulateIoResources (fuel : nat) (FdtBase : Z)
    (Compatible : string) : Pei unit :=
  let* Node :=
    gets (fun st =>
            fdt_node_offset_by_compatible (Blobs st) FdtBase (-1)
                                          Compatible) in
  PopulateIoResources_while fuel FdtBase Compatible Node.

Section Platform.

(** The firmware-volume window, fixed by the platform's configuration
    database, which is not under src/. *)
Variable PcdRiscVDxeFvBase : Z.
Variable PcdRiscVDxeFvSize : Z.

(** What libfdt's repacking copy leaves in the destination buffer, given
    the source tree and the size of the buffer. libfdt is not under
    src/. *)
Variable fdt_repack : fdt_blob -> Z -> fdt_blob.

(** Modelled from the spec: libfdt is not under src/. The spec has
    "copy/repack the tree into the new allocation, growing internal free
    space to exactly fill the allocated page span". libfdt declares
    [int bufsize]; a buffer too small for the tree (a negative size is) is
    refused and left as it was. *)
Definition fdt_open_into (fdt buf bufsize : Z) : Pei Z :=
  fun st =>
    match Blobs st !! fdt with
    | Some b =>
        if fdt_header_status b =? 0 then
          if bufsize <? UINT32 (fdt_total b)
          then Some (- FDT_ERR_NOSPACE, st)
          else Some (0, set_Blobs (<[buf := fdt_repack b bufsize]>
                                     (Blobs st)) st)
        else Some (fdt_header_status b, st)
    | None => Some (- FDT_ERR_BADMAGIC, st)
    end.

Definition PlatformPeimInitialization (fuel : nat) (DeviceTreeAddress : Z)
  : Pei EFI_STATUS :=
  if DeviceTreeAddress =? NULL then
    ret EFI_UNSUPPORTED
  else
  let Base := DeviceTreeAddress in
  let* HeaderStatus := gets (fun st => fdt_check_header (Blobs st) Base) in
  if negb (HeaderStatus =? 0) then
    ret EFI_UNSUPPORTED
  else
  let* FdtSize := gets (fun st => UINTN (fdt_totalsize (Blobs st) Base)) in
  let FdtPages := EFI_SIZE_TO_PAGES FdtSize in
  let* NewBase := AllocatePages FdtPages in
  if NewBase =? NULL then
    ret EFI_UNSUPPORTED
  else
  fdt_open_into Base NewBase (INT32 (EFI_PAGES_TO_SIZE FdtPages)) ;;;
  let* FdtHobData := BuildGuidHob gFdtHobGuid 8 in
  match FdtHobData with
  | None => ret EFI_UNSUPPORTED
  | Some FdtHobData =>
      store_guid_data FdtHobData (UINTN NewBase) ;;;
      BuildFvHob PcdRiscVDxeFvBase PcdRiscVDxeFvSize ;;;
      (* Add PCI resource *)
      PopulateIoResources fuel Base "sophgo,cdns-pcie-host" ;;;
      (* 3GB - 4GB memory space is reserved for PCIe 32-bit inbound
         access. *)
      AddIoMemoryBaseSizeHob 0xC0000000 0x40000000 ;;;
      (* Add SDHI resource *)
      PopulateIoResources fuel Base "bitmain,bm-sd" ;;;
      ret EFI_SUCCESS
  end.

End Platform.

(** libfdt's copy keeps the nodes and the bytes and declares the size of the
    destination buffer as the total size. *)
Definition libfdt_repack (b : fdt_blob) (bufsize : Z) : fdt_blob :=
  {| fdt_header_status := fdt_header_status b;
     fdt_total := bufsize;
     fdt_nodes := fdt_nodes b;
     fdt_struct_end := fdt_struct_end b;
     fdt_data := fdt_data b |}.

Local Close Scope pei_scope.

(** * Notions the statements use *)

(** Rounding up to a multiple of the page size, over the integers. *)
Definition page_round_up (Size : Z) : Z :=
  EFI_PAGE_SIZE * ((Size + (EFI_PAGE_SIZE - 1)) / EFI_PAGE_SIZE).

(** The number of pages that cover [Size] bytes. *)
Definition pages_covering (Size : Z) : Z :=
  (Size + (EFI_PAGE_SIZE - 1)) / EFI_PAGE_SIZE.

(** [s] is the least multiple of the page size that is at least [Size]. *)
Definition least_page_multiple (Size s : Z) : Prop :=
  s mod EFI_PAGE_SIZE = 0 /\ Size <= s
  /\ forall m, m mod EFI_PAGE_SIZE = 0 -> Size <= m -> s <= m.

Definition MMIO_ATTRIBUTES : Z := 0x407.

(** A memory-mapped I/O record as it lies in the store. *)
Definition mmio (PhysicalStart ResourceLength : Z) : Hob :=
  HobResourceDescriptor EFI_RESOURCE_MEMORY_MAPPED_IO MMIO_ATTRIBUTES
    PhysicalStart ResourceLength.

(** The record [AddIoMemoryBaseSizeHob] leaves for a window. *)
Definition io_record (MemoryBase MemorySize : Z) : Hob :=
  HobResourceDescriptor EFI_RESOURCE_MEMORY_MAPPED_IO MMIO_ATTRIBUTES
    MemoryBase (UINT64 (ALIGN_VALUE MemorySize EFI_PAGE_SIZE)).

(** What one node contributes to a scan for [Compatible]. *)
Definition node_records (b : fdt_blob) (Compatible : string) (n : fdt_node)
  : list Hob :=
  if fdt_node_check_compatible n Compatible then
    match fdt_find_prop n "reg" with
    | Some p =>
        io_record (reg_word b p 0) (reg_word b p 1)
        :: (if UINTN (prop_len p) >? 16
            then [io_record (reg_word b p 2) (reg_word b p 3)]
            else [])
    | None => []
    end
  else [].

Definition scan_records (b : fdt_blob) (Compatible : string) : list Hob :=
  flat_map (node_records b Compatible) (fdt_nodes b).

(** The record of the first window of a node's reg property. *)
Definition first_window (b : fdt_blob) (n : fdt_node) (r : Hob) : Prop :=
  exists p,
    fdt_find_prop n "reg" = Some p
    /\ r = io_record (reg_word b p 0) (reg_word b p 1).

(** The pool can hand out [Pages] pages. *)
Definition pool_grants (st : PeiState) (Pages : Z) : Prop :=
  0 < Pages <= PoolPages st /\ 0 < PoolTop st - Pages * EFI_PAGE_SIZE.

(** The address lies outside the free pool. *)
Definition outside_pool (st : PeiState) (a : Z) : Prop :=
  a < PoolTop st - PoolPages st * EFI_PAGE_SIZE \/ PoolTop st <= a.

(** The pages the entry point asks for to relocate the tree [b]. *)
Definition tree_pages (b : fdt_blob) : Z :=
  EFI_SIZE_TO_PAGES (UINTN (UINT32 (fdt_total b))).

Definition PCIE_COMPATIBLE : string := "sophgo,cdns-pcie-host".
Definition SD_COMPATIBLE : string := "bitmain,bm-sd".

(** The size the repacking copy receives for the tree [b]: the byte size
    of the fresh pages, converted to [int]. *)
Definition copy_bufsize (b : fdt_blob) : Z :=
  INT32 (EFI_PAGES_TO_SIZE (tree_pages b)).

(** The state once fresh pages have been taken for the tree [b] and the
    copy into them has been tried. *)
Definition relocated (fdt_repack : fdt_blob -> Z -> fdt_blob) (b : fdt_blob)
    (st : PeiState) : PeiState :=
  let NewBase := PoolTop st - tree_pages b * EFI_PAGE_SIZE in
  let st1 := set_Pool NewBase (PoolPages st - tree_pages b) st in
  if copy_bufsize b <? UINT32 (fdt_total b)
  then st1
  else set_Blobs (<[NewBase := fdt_repack b (copy_bufsize b)]> (Blobs st))
                 st1.

(** The records of a phase that succeeds on the tree [b]. *)
Definition phase_records (PcdRiscVDxeFvBase PcdRiscVDxeFvSize : Z)
    (b : fdt_blob) (st : PeiState) : list Hob :=
  [HobGuidExtension gFdtHobGuid
     (UINTN (PoolTop st - tree_pages b * EFI_PAGE_SIZE));
   HobFirmwareVolume PcdRiscVDxeFvBase PcdRiscVDxeFvSize]
  ++ scan_records b PCIE_COMPATIBLE
  ++ [io_record 0xC0000000 0x40000000]
  ++ scan_records b SD_COMPATIBLE.

(** A memory-mapped I/O record with the fixed attributes whose length is a
    multiple of the page size and fits 64 bits. *)
Definition aligned_io_record (h : Hob) : Prop :=
  exists base size,
    h = mmio base size /\ size mod EFI_PAGE_SIZE = 0 /\ 0 <= size < 2 ^ 64.

(** The node is compatible with [Compatible] and carries a reg property. *)
Definition scanned_node (Compatible : string) (n : fdt_node) : bool :=
  fdt_node_check_compatible n Compatible
  && match fdt_find_prop n "reg" with Some _ => true | None => false end.

(** What a scan for [Compatible] may append for the node [n]: nothing when
    the node is not compatible or has no reg property, otherwise the record
    of the first pair of words of its reg property, alone or followed by
    the record of the second pair. *)
Definition node_yields (b : fdt_blob) (Compatible : string) (n : fdt_node)
    (r : list Hob) : Prop :=
  if scanned_node Compatible n then
    exists p,
      fdt_find_prop n "reg" = Some p
      /\ (r = [io_record (reg_word b p 0) (reg_word b p 1)]
          \/ r = [io_record (reg_word b p 0) (reg_word b p 1);
                  io_record (reg_word b p 2) (reg_word b p 3)])
  else r = [].

(** * Boards to run the code on *)

Definition byte_of_Z (z : Z) : byte :=
  match Byte.of_N (Z.to_N (z mod 256)) with
  | Some x => x
  | None => x00
  end.

(** The eight bytes of a 64-bit word, most significant first. *)
Definition be64_bytes (w : Z) : list byte :=
  map (fun i => byte_of_Z (Z.shiftr w (8 * Z.of_nat (7 - i)))) (seq 0 8).

Definition reg_prop (off len : Z) : fdt_property :=
  {| prop_name := "reg"; prop_off := off; prop_len := len |}.

(** A tree with a root, a host bridge whose reg holds four words at byte 16
    and a storage controller whose reg holds two words at byte 48. *)
Definition board_nodes : list fdt_node :=
  [ {| node_compatible := ["sophgo,sg2042"]; node_props := [] |};
    {| node_compatible := ["sophgo,cdns-pcie-host"];
       node_props := [reg_prop 16 32] |};
    {| node_compatible := ["bitmain,bm-sd"];
       node_props := [reg_prop 48 16] |} ].

Definition board_data : list byte :=
  replicate 16 x00
  ++ be64_bytes 0x4000000000 ++ be64_bytes 0x10000000
  ++ be64_bytes 0x5000000000 ++ be64_bytes 0x1000000
  ++ be64_bytes 0x6000000000 ++ be64_bytes 0x1000
  ++ [x00; x00; x00; x02; x00; x00; x00; x09].

Definition board_tree : fdt_blob :=
  {| fdt_header_status := 0; fdt_total := 0x2345;
     fdt_nodes := board_nodes;
     fdt_struct_end := - FDT_ERR_NOTFOUND; fdt_data := board_data |}.

Definition BOARD_FDT : Z := 0x80200000.

Definition board_state (tree : fdt_blob) : PeiState :=
  {| Hobs := []; GuidHobAvailable := true;
     PoolTop := 0x90000000; PoolPages := 0x100;
     Blobs := {[ BOARD_FDT := tree ]} |}.

(** A tree whose two storage nodes carry malformed reg properties: one word
    at byte 16 and three words at byte 32, each followed in the buffer by
    the tokens of the structure block. *)
Definition stray_nodes : list fdt_node :=
  [ {| node_compatible := ["sophgo,sg2042"]; node_props := [] |};
    {| node_compatible := ["bitmain,bm-sd"];
       node_props := [reg_prop 16 8] |};
    {| node_compatible := ["bitmain,bm-sd"];
       node_props := [reg_prop 32 24] |} ].

Definition stray_data : list byte :=
  replicate 16 x00
  ++ be64_bytes 0x6000000000
  ++ [x00; x00; x00; x02; x00; x00; x00; x01]
  ++ be64_bytes 0x7000000000 ++ be64_bytes 0x1000 ++ be64_bytes 0x8000000000
  ++ [x00; x00; x00; x02; x00; x00; x00; x09].

Definition stray_tree : fdt_blob :=
  {| fdt_header_status := 0; fdt_total := 0x1000;
     fdt_nodes := stray_nodes;
     fdt_struct_end := - FDT_ERR_NOTFOUND; fdt_data := stray_data |}.

(** A tree whose header does not validate. *)
Definition corrupt_tree : fdt_blob :=
  {| fdt_header_status := - FDT_ERR_BADMAGIC; fdt_total := 0x2345;
     fdt_nodes := board_nodes;
     fdt_struct_end := - FDT_ERR_NOTFOUND; fdt_data := board_data |}.

(** A tree in which no node is a host bridge or a storage controller. *)
Definition bare_tree : fdt_blob :=
  {| fdt_header_status := 0; fdt_total := 0x1000;
     fdt_nodes := [ {| node_compatible := ["sophgo,sg2042"];
                       node_props := [] |};
                    {| node_compatible := ["ns16550a"];
                       node_props := [reg_prop 16 16] |} ];
     fdt_struct_end := - FDT_ERR_NOTFOUND;
     fdt_data := board_data |}.

(** A copy that keeps nothing of the tree it is given. *)
Definition erasing_repack (b : fdt_blob) (bufsize : Z) : fdt_blob :=
  {| fdt_header_status := 0; fdt_total := bufsize;
     fdt_nodes := [];
     fdt_struct_end := - FDT_ERR_NOTFOUND; fdt_data := [] |}.

(** A tree whose first storage node has no reg property. *)
Definition regless_tree : fdt_blob :=
  {| fdt_header_status := 0; fdt_total := 0x1000;
     fdt_nodes := [ {| node_compatible := ["sophgo,sg2042"];
                       node_props := [] |};
                    {| node_compatible := ["bitmain,bm-sd"];
                       node_props := [] |};
                    {| node_compatible := ["bitmain,bm-sd"];
                       node_props := [reg_prop 48 16] |} ];
     fdt_struct_end := - FDT_ERR_NOTFOUND;
     fdt_data := board_data |}.

(** A tree whose host bridge has a reg property of six words. *)
Definition wide_tree : fdt_blob :=
  {| fdt_header_status := 0; fdt_total := 0x1000;
     fdt_nodes := [ {| node_compatible := ["sophgo,sg2042"];
                       node_props := [] |};
                    {| node_compatible := ["sophgo,cdns-pcie-host"];
                       node_props := [reg_prop 16 48] |} ];
     fdt_struct_end := - FDT_ERR_NOTFOUND;
     fdt_data := board_data |}.

(** The board with an exhausted pool. *)
Definition starved_state (tree : fdt_blob) : PeiState :=
  set_Pool 0x90000000 0 (board_state tree).

(** The board whose store takes no announcement record. *)
Definition full_store_state (tree : fdt_blob) : PeiState :=
  {| Hobs := [HobFirmwareVolume 0x1000000 0x200000];
     GuidHobAvailable := false;
     PoolTop := 0x90000000; PoolPages := 0x100;
     Blobs := {[ BOARD_FDT := tree ]} |}.

(** The board tree with a structure block that is corrupt after its last
    node: the header validates, the walk ends on an error. *)
Definition broken_tree : fdt_blob :=
  {| fdt_header_status := 0; fdt_total := 0x2345;
     fdt_nodes := board_nodes;
     fdt_struct_end := - FDT_ERR_BADSTRUCTURE; fdt_data := board_data |}.

(** The board tree with a declared size whose page span does not fit a
    signed 32-bit size. *)
Definition large_tree : fdt_blob :=
  {| fdt_header_status := 0; fdt_total := 0x7FFFF001;
     fdt_nodes := board_nodes;
     fdt_struct_end := - FDT_ERR_NOTFOUND; fdt_data := board_data |}.

(** A board with a pool of 8 GiB below 16 GiB. *)
Definition roomy_state (tree : fdt_blob) : PeiState :=
  {| Hobs := []; GuidHobAvailable := true;
     PoolTop := 0x400000000; PoolPages := 0x200000;
     Blobs := {[ BOARD_FDT := tree ]} |}.

(** * Arithmetic of the page macros *)

Lemma ALIGN_VALUE_page (Size : Z) :
  ALIGN_VALUE Size EFI_PAGE_SIZE = page_round_up Size.
Proof.
  unfold ALIGN_VALUE, page_round_up, EFI_PAGE_SIZE.
  change (0x1000 - 1) with (Z.ones 12).
  rewrite Z.land_ones by lia.
  change (Z.ones 12) with 4095. change (2 ^ 12) with 4096.
  change 0x1000 with 4096.
  Z.div_mod_to_equations. lia.
Qed.

Lemma page_round_up_least (Size : Z) :
  page_round_up Size mod EFI_PAGE_SIZE = 0
  /\ Size <= page_round_up Size < Size + EFI_PAGE_SIZE
  /\ (forall m,
        m mod EFI_PAGE_SIZE = 0 -> Size <= m -> page_round_up Size <= m).
Proof.
  unfold page_round_up, EFI_PAGE_SIZE. change (0x1000) with 4096.
  repeat split.
  - rewrite Z.mul_comm. apply Z_mod_mult.
  - Z.div_mod_to_equations. lia.
  - Z.div_mod_to_equations. lia.
  - intros m Hm Hle. Z.div_mod_to_equations. lia.
Qed.

Lemma page_round_up_aligned (Size : Z) :
  Size mod EFI_PAGE_SIZE = 0 -> page_round_up Size = Size.
Proof.
  unfold page_round_up, EFI_PAGE_SIZE. change (0x1000) with 4096.
  intros H. Z.div_mod_to_equations. lia.
Qed.

Lemma EFI_SIZE_TO_PAGES_ceil (Size : Z) :
  0 <= Size < 2 ^ 64 - EFI_PAGE_SIZE ->
  EFI_SIZE_TO_PAGES Size = (Size + (EFI_PAGE_SIZE - 1)) / EFI_PAGE_SIZE.
Proof.
  unfold EFI_SIZE_TO_PAGES, UINTN, UINT64, EFI_PAGE_SHIFT, EFI_PAGE_MASK,
    EFI_PAGE_SIZE.
  intros H. rewrite Z.shiftr_div_pow2 by lia.
  change 0xFFF with (Z.ones 12). rewrite Z.land_ones by lia.
  change (2 ^ 12) with 4096 in *. change 0x1000 with 4096 in *.
  change (2 ^ 64) with 18446744073709551616 in *.
  destruct (Z.eqb_spec (Size mod 4096) 0) as [E | E];
    rewrite Z.mod_small; Z.div_mod_to_equations; lia.
Qed.

Lemma EFI_PAGES_TO_SIZE_mul (Pages : Z) :
  0 <= Pages < 2 ^ 52 ->
  EFI_PAGES_TO_SIZE Pages = EFI_PAGE_SIZE * Pages.
Proof.
  unfold EFI_PAGES_TO_SIZE, UINTN, UINT64, EFI_PAGE_SHIFT, EFI_PAGE_SIZE.
  intros H. rewrite Z.shiftl_mul_pow2 by lia.
  change (2 ^ 12) with 4096. change 0x1000 with 4096.
  change (2 ^ 52) with 4503599627370496 in H.
  change (2 ^ 64) with 18446744073709551616.
  rewrite Z.mod_small; lia.
Qed.

(** * The Normalizer *)

Lemma AddIoMemoryBaseSizeHob_eq (MemoryBase MemorySize : Z) (st : PeiState) :
  AddIoMemoryBaseSizeHob MemoryBase MemorySize st
  = Some (tt, set_Hobs (Hobs st ++ [io_record MemoryBase MemorySize]) st).
Proof. reflexivity. Qed.

(** * Byte order *)

Lemma lor_shiftl_add (a b n : Z) :
  0 <= n -> 0 <= b < 2 ^ n -> Z.lor (Z.shiftl a n) b = a * 2 ^ n + b.
Proof.
  intros Hn Hb. rewrite <- Z.shiftl_mul_pow2 by lia.
  assert (Hl : Z.land (Z.shiftl a n) b = 0).
  { apply Z.bits_inj'; intros i Hi; rewrite Z.land_spec, Z.bits_0.
    destruct (Z.lt_ge_cases i n).
    - rewrite Z.shiftl_spec_low; auto.
    - replace b with (b mod 2 ^ n) by (apply Z.mod_small; lia).
      rewrite Z.mod_pow2_bits_high by lia. apply andb_false_r. }
  rewrite <- Z.lxor_lor, <- Z.add_nocarry_lxor; auto.
Qed.

Lemma SwapBytes16_bytes (b0 b1 : Z) :
  0 <= b0 < 256 -> 0 <= b1 < 256 ->
  SwapBytes16 (b0 + 256 * b1) = b1 + 256 * b0.
Proof.
  intros. unfold SwapBytes16, UINT16.
  rewrite Z.shiftr_div_pow2 by lia.
  rewrite lor_shiftl_add;
    [ | lia | change (2 ^ 8) with 256; Z.div_mod_to_equations; lia ].
  change (2 ^ 8) with 256. change (2 ^ 16) with 65536.
  Z.div_mod_to_equations. lia.
Qed.

Lemma SwapBytes32_bytes (b0 b1 b2 b3 : Z) :
  0 <= b0 < 256 -> 0 <= b1 < 256 -> 0 <= b2 < 256 -> 0 <= b3 < 256 ->
  SwapBytes32 (b0 + 256 * (b1 + 256 * (b2 + 256 * b3)))
  = b3 + 256 * (b2 + 256 * (b1 + 256 * b0)).
Proof.
  intros. unfold SwapBytes32.
  replace (UINT16 (b0 + 256 * (b1 + 256 * (b2 + 256 * b3))))
    with (b0 + 256 * b1)
    by (unfold UINT16; change (2 ^ 16) with 65536;
        Z.div_mod_to_equations; lia).
  replace (UINT16 (Z.shiftr (b0 + 256 * (b1 + 256 * (b2 + 256 * b3))) 16))
    with (b2 + 256 * b3)
    by (unfold UINT16; rewrite Z.shiftr_div_pow2 by lia;
        change (2 ^ 16) with 65536; Z.div_mod_to_equations; lia).
  rewrite !SwapBytes16_bytes by lia.
  unfold UINT32. change (2 ^ 32) with 4294967296.
  rewrite (Z.mod_small (b1 + 256 * b0)), (Z.mod_small (b3 + 256 * b2)) by lia.
  rewrite lor_shiftl_add by lia.
  change (2 ^ 16) with 65536. rewrite Z.mod_small by lia. lia.
Qed.

Lemma SwapBytes64_bytes (b0 b1 b2 b3 b4 b5 b6 b7 : Z) :
  0 <= b0 < 256 -> 0 <= b1 < 256 -> 0 <= b2 < 256 -> 0 <= b3 < 256 ->
  0 <= b4 < 256 -> 0 <= b5 < 256 -> 0 <= b6 < 256 -> 0 <= b7 < 256 ->
  SwapBytes64
    (b0 + 256 * (b1 + 256 * (b2 + 256 * (b3 + 256 *
      (b4 + 256 * (b5 + 256 * (b6 + 256 * b7)))))))
  = b7 + 256 * (b6 + 256 * (b5 + 256 * (b4 + 256 *
      (b3 + 256 * (b2 + 256 * (b1 + 256 * b0)))))).
Proof.
  intros. unfold SwapBytes64.
  set (x := b0 + 256 * (b1 + 256 * (b2 + 256 * (b3 + 256 *
      (b4 + 256 * (b5 + 256 * (b6 + 256 * b7))))))).
  replace (UINT32 x) with (b0 + 256 * (b1 + 256 * (b2 + 256 * b3)))
    by (unfold UINT32, x; change (2 ^ 32) with 4294967296;
        Z.div_mod_to_equations; lia).
  replace (UINT32 (Z.shiftr x 32))
    with (b4 + 256 * (b5 + 256 * (b6 + 256 * b7)))
    by (unfold UINT32, x; rewrite Z.shiftr_div_pow2 by lia;
        change (2 ^ 32) with 4294967296; Z.div_mod_to_equations; lia).
  rewrite !SwapBytes32_bytes by lia.
  unfold UINT64. change (2 ^ 64) with 18446744073709551616.
  rewrite (Z.mod_small (b3 + 256 * (b2 + 256 * (b1 + 256 * b0)))),
    (Z.mod_small (b7 + 256 * (b6 + 256 * (b5 + 256 * b4)))) by lia.
  rewrite lor_shiftl_add by lia.
  change (2 ^ 32) with 4294967296. rewrite Z.mod_small by lia. lia.
Qed.

Lemma byte_at_range (d : list byte) (i : Z) : 0 <= byte_at d i < 256.
Proof.
  unfold byte_at. destruct (i <? 0); [lia |].
  pose proof (Byte.to_N_bounded (nth (Z.to_nat i) d x00)). lia.
Qed.

(** Swapping the bytes of a little-endian load gives the big-endian
    reading of the same eight bytes. *)
Lemma SwapBytes64_load_le (d : list byte) (off : Z) :
  SwapBytes64 (load_le d off 8) = load_be d off 8 0.
Proof.
  cbn [load_le load_be].
  rewrite Z.mul_0_r, Z.add_0_r.
  rewrite SwapBytes64_bytes by apply byte_at_range.
  lia.
Qed.

Lemma load_be_range (d : list byte) (off : Z) :
  0 <= load_be d off 8 0 < 2 ^ 64.
Proof.
  cbn [load_be]. change (2 ^ 64) with 18446744073709551616.
  pose proof (byte_at_range d off).
  pose proof (byte_at_range d (off + 1)).
  pose proof (byte_at_range d (off + 1 + 1)).
  pose proof (byte_at_range d (off + 1 + 1 + 1)).
  pose proof (byte_at_range d (off + 1 + 1 + 1 + 1)).
  pose proof (byte_at_range d (off + 1 + 1 + 1 + 1 + 1)).
  pose proof (byte_at_range d (off + 1 + 1 + 1 + 1 + 1 + 1)).
  pose proof (byte_at_range d (off + 1 + 1 + 1 + 1 + 1 + 1 + 1)).
  lia.
Qed.

(** * The scan as a list of records *)

Lemma set_Hobs_same (st : PeiState) : set_Hobs (Hobs st ++ []) st = st.
Proof. destruct st. unfold set_Hobs. cbn. by rewrite app_nil_r. Qed.

Lemma set_Hobs_set_Hobs (h1 h2 : list Hob) (st : PeiState) :
  set_Hobs h2 (set_Hobs h1 st) = set_Hobs h2 st.
Proof. reflexivity. Qed.

Lemma node_offset_from_skip (C : string) (l pre : list fdt_node)
    (off start e : Z) :
  off + Z.of_nat (length pre) <= start + 1 ->
  node_offset_from (pre ++ l) off start C e
  = node_offset_from l (off + Z.of_nat (length pre)) start C e.
Proof.
  revert off. induction pre as [| n pre IH]; intros off Hle.
  - cbn. f_equal. lia.
  - cbn [app node_offset_from length] in *.
    destruct (Z.ltb_spec start off) as [Hlt | _]; [lia |].
    cbn [andb]. rewrite IH by lia. f_equal. lia.
Qed.

Lemma node_offset_from_start (C : string) (l : list fdt_node)
    (off start start' e : Z) :
  start < off -> start' < off ->
  node_offset_from l off start C e = node_offset_from l off start' C e.
Proof.
  revert off. induction l as [| n l IH]; intros off H1 H2; [done |].
  cbn [node_offset_from].
  destruct (Z.ltb_spec start off), (Z.ltb_spec start' off); try lia.
  cbn [andb]. destruct (fdt_node_check_compatible n C); [done |].
  apply IH; lia.
Qed.

Section Scan.

Variable FdtBase : Z.
Variable Compatible : string.
Variable b : fdt_blob.
Hypothesis header_ok : fdt_header_status b = 0.
Hypothesis struct_ok : fdt_struct_end b = - FDT_ERR_NOTFOUND.

(** One turn of the loop at a compatible node. *)
Lemma node_step (n : fdt_node) (st : PeiState) (k : unit -> Pei unit)
    (Node : Z) :
  Blobs st !! FdtBase = Some b ->
  0 <= Node ->
  fdt_nodes b !! Z.to_nat Node = Some n ->
  fdt_node_check_compatible n Compatible = true ->
  bind (gets (fun st => fdt_getprop (Blobs st) FdtBase Node "reg"))
       (fun '(Reg, LenP) =>
    bind
       match Reg with
       | Some Reg =>
           bind (gets (fun st => read_UINT64 (Blobs st) Reg 0)) (fun Reg0 =>
           bind (gets (fun st => read_UINT64 (Blobs st) Reg 1)) (fun Reg1 =>
           bind (AddIoMemoryBaseSizeHob (SwapBytes64 Reg0)
                                        (SwapBytes64 Reg1)) (fun _ =>
           if UINTN LenP >? 2 * 8 then
             bind (gets (fun st => read_UINT64 (Blobs st) Reg 2))
               (fun Reg2 =>
             bind (gets (fun st => read_UINT64 (Blobs st) Reg 3))
               (fun Reg3 =>
             AddIoMemoryBaseSizeHob (SwapBytes64 Reg2) (SwapBytes64 Reg3)))
           else ret tt)))
       | None => ret tt
       end k) st
  = k tt (set_Hobs (Hobs st ++ node_records b Compatible n) st).
Proof.
  intros Hb H0 Hn Hc.
  unfold bind at 1, gets at 1, fdt_getprop, node_records.
  rewrite Hb, header_ok, Hc. cbn [Z.eqb].
  destruct (Z.ltb_spec Node 0) as [? | _]; [lia |].
  rewrite Hn.
  destruct (fdt_find_prop n "reg") as [p |].
  - unfold bind, gets, read_UINT64. cbn [fst snd].
    rewrite Hb. rewrite AddIoMemoryBaseSizeHob_eq.
    rewrite !SwapBytes64_load_le. fold (reg_word b p 0) (reg_word b p 1).
    change (2 * 8) with 16.
    destruct (UINTN (prop_len p) >? 16).
    + cbn [Blobs set_Hobs]. rewrite Hb. rewrite AddIoMemoryBaseSizeHob_eq.
      rewrite !SwapBytes64_load_le.
      fold (reg_word b p 2) (reg_word b p 3).
      cbn [Hobs set_Hobs]. rewrite set_Hobs_set_Hobs.
      by rewrite <- app_assoc.
    + reflexivity.
  - unfold ret. by rewrite set_Hobs_same.
Qed.

Lemma PopulateIoResources_while_scan (suf pre : list fdt_node) :
  forall (fuel : nat) (st : PeiState),
    fdt_nodes b = pre ++ suf ->
    Blobs st !! FdtBase = Some b ->
    (length suf < fuel)%nat ->
    PopulateIoResources_while fuel FdtBase Compatible
      (node_offset_from suf (Z.of_nat (length pre))
                        (Z.of_nat (length pre) - 1) Compatible
                        (fdt_struct_end b)) st
    = Some (tt, set_Hobs (Hobs st
                          ++ flat_map (node_records b Compatible) suf) st).
Proof.
  revert pre. induction suf as [| n suf' IH]; intros pre fuel st Hn Hb Hf.
  - destruct fuel as [| fuel]; [cbn in Hf; lia |].
    cbn [node_offset_from]. rewrite struct_ok.
    cbn. unfold ret. by rewrite set_Hobs_same.
  - assert (Hn' : fdt_nodes b = (pre ++ [n]) ++ suf')
      by (by rewrite <- app_assoc).
    assert (Hlen : Z.of_nat (length (pre ++ [n]))
                   = Z.of_nat (length pre) + 1)
      by (rewrite length_app; cbn; lia).
    cbn [node_offset_from flat_map].
    destruct (Z.ltb_spec (Z.of_nat (length pre) - 1) (Z.of_nat (length pre)))
      as [_ | ?]; [| lia].
    cbn [andb].
    destruct (fdt_node_check_compatible n Compatible) eqn:Hc.
    + destruct fuel as [| fuel]; [cbn in Hf; lia |].
      cbn [PopulateIoResources_while].
      destruct (Z.eqb_spec (Z.of_nat (length pre)) (- FDT_ERR_NOTFOUND))
        as [E | _]; [unfold FDT_ERR_NOTFOUND in E; lia |].
      rewrite (node_step n); [| done | lia | | done].
      2:{ rewrite Nat2Z.id, Hn. by rewrite list_lookup_middle. }
      unfold bind at 1, gets at 1, fdt_node_offset_by_compatible.
      cbn [Blobs set_Hobs]. rewrite Hb, header_ok. cbn [Z.eqb].
      destruct (Z.leb_spec (Z.of_nat (length (fdt_nodes b)))
                           (Z.of_nat (length pre))) as [Hbad | _].
      { rewrite Hn, length_app in Hbad. cbn in Hbad. lia. }
      rewrite Hn' at 1.
      rewrite node_offset_from_skip by lia.
      rewrite Z.add_0_l.
      rewrite (node_offset_from_start _ _ _ _
                 (Z.of_nat (length (pre ++ [n])) - 1)) by lia.
      rewrite IH; [| done | done | cbn in Hf; lia].
      cbn [Hobs set_Hobs]. rewrite set_Hobs_set_Hobs.
      by rewrite <- app_assoc.
    + rewrite <- Hlen.
      rewrite (node_offset_from_start _ _ _ _
                 (Z.of_nat (length (pre ++ [n])) - 1)) by lia.
      rewrite IH; [| done | done | cbn in Hf; lia].
      unfold node_records at 2. by rewrite Hc.
Qed.

(** With fuel beyond the number of nodes, a scan of a buffer that holds a
    sound tree returns, having appended the records of its compatible
    nodes in the order of the tree. *)
Lemma PopulateIoResources_scan (fuel : nat) (st : PeiState) :
  Blobs st !! FdtBase = Some b ->
  (length (fdt_nodes b) < fuel)%nat ->
  PopulateIoResources fuel FdtBase Compatible st
  = Some (tt, set_Hobs (Hobs st ++ scan_records b Compatible) st).
Proof.
  intros Hb Hf. unfold PopulateIoResources, bind at 1, gets at 1.
  unfold fdt_node_offset_by_compatible. rewrite Hb, header_ok. cbn [Z.eqb].
  destruct (Z.leb_spec (Z.of_nat (length (fdt_nodes b))) (-1)); [lia |].
  apply (PopulateIoResources_while_scan (fdt_nodes b) []); done.
Qed.

End Scan.

(** * The scan in any state *)

Lemma io_record_aligned (MemoryBase MemorySize : Z) :
  aligned_io_record (io_record MemoryBase MemorySize).
Proof.
  exists MemoryBase, (UINT64 (ALIGN_VALUE MemorySize EFI_PAGE_SIZE)).
  split; [reflexivity |].
  rewrite ALIGN_VALUE_page.
  destruct (page_round_up_least MemorySize) as (Hm & _ & _).
  unfold UINT64, EFI_PAGE_SIZE in *. change 0x1000 with 4096 in *.
  change (2 ^ 64) with 18446744073709551616.
  split; Z.div_mod_to_equations; lia.
Qed.

(** One turn of the loop, in any state: it appends at most two aligned
    records and touches nothing else. *)
Lemma loop_body_appends (FdtBase : Z) (Node : Z) (st : PeiState) :
  exists l,
    Forall aligned_io_record l
    /\ (length l <= 2)%nat
    /\ forall k : unit -> Pei unit,
      bind (gets (fun st => fdt_getprop (Blobs st) FdtBase Node "reg"))
           (fun '(Reg, LenP) =>
        bind
           match Reg with
           | Some Reg =>
               bind (gets (fun st => read_UINT64 (Blobs st) Reg 0))
                 (fun Reg0 =>
               bind (gets (fun st => read_UINT64 (Blobs st) Reg 1))
                 (fun Reg1 =>
               bind (AddIoMemoryBaseSizeHob (SwapBytes64 Reg0)
                                            (SwapBytes64 Reg1)) (fun _ =>
               if UINTN LenP >? 2 * 8 then
                 bind (gets (fun st => read_UINT64 (Blobs st) Reg 2))
                   (fun Reg2 =>
                 bind (gets (fun st => read_UINT64 (Blobs st) Reg 3))
                   (fun Reg3 =>
                 AddIoMemoryBaseSizeHob (SwapBytes64 Reg2)
                                        (SwapBytes64 Reg3)))
               else ret tt)))
           | None => ret tt
           end k) st
      = k tt (set_Hobs (Hobs st ++ l) st).
Proof.
  unfold bind at 1, gets at 1.
  destruct (fdt_getprop (Blobs st) FdtBase Node "reg") as [[Reg |] LenP].
  - destruct (UINTN LenP >? 2 * 8) eqn:Hlen.
    + eexists [io_record _ _; io_record _ _].
      split; [repeat constructor; apply io_record_aligned |].
      split; [cbn; lia |].
      intros k. unfold bind, gets. rewrite AddIoMemoryBaseSizeHob_eq.
      cbn [Blobs set_Hobs].
      rewrite AddIoMemoryBaseSizeHob_eq. cbn [Hobs set_Hobs].
      rewrite set_Hobs_set_Hobs. by rewrite <- app_assoc.
    + eexists [io_record _ _].
      split; [repeat constructor; apply io_record_aligned |].
      split; [cbn; lia |].
      intros k. unfold bind, gets. by rewrite AddIoMemoryBaseSizeHob_eq.
  - exists []. split; [constructor |]. split; [cbn; lia |].
    intros k. unfold bind, ret. by rewrite set_Hobs_same.
Qed.

Lemma PopulateIoResources_while_appends (FdtBase : Z) (Compatible : string)
    (fuel : nat) :
  forall (Node : Z) (st st' : PeiState),
    PopulateIoResources_while fuel FdtBase Compatible Node st
    = Some (tt, st') ->
    exists l, st' = set_Hobs (Hobs st ++ l) st
              /\ Forall aligned_io_record l.
Proof.
  induction fuel as [| fuel IH]; intros Node st st' H; [done |].
  cbn [PopulateIoResources_while] in H.
  destruct (Node =? - FDT_ERR_NOTFOUND).
  - injection H as <-. exists []. split; [by rewrite set_Hobs_same | done].
  - destruct (loop_body_appends FdtBase Node st) as (l1 & Hl1 & _ & Hk).
    rewrite Hk in H. unfold bind at 1, gets at 1 in H.
    apply IH in H as (l2 & -> & Hl2).
    exists (l1 ++ l2). cbn [Hobs set_Hobs]. rewrite set_Hobs_set_Hobs.
    split; [by rewrite app_assoc | by apply Forall_app].
Qed.

Lemma PopulateIoResources_appends (FdtBase : Z) (Compatible : string)
    (fuel : nat) (st st' : PeiState) :
  PopulateIoResources fuel FdtBase Compatible st = Some (tt, st') ->
  exists l, st' = set_Hobs (Hobs st ++ l) st /\ Forall aligned_io_record l.
Proof.
  unfold PopulateIoResources, bind at 1, gets at 1.
  apply PopulateIoResources_while_appends.
Qed.

Lemma node_offset_from_not_end (C : string) (l : list fdt_node)
    (off start e : Z) :
  0 <= off -> e <> - FDT_ERR_NOTFOUND ->
  node_offset_from l off start C e <> - FDT_ERR_NOTFOUND.
Proof.
  revert off. induction l as [| n l IH]; intros off H0 He; [done |].
  cbn [node_offset_from].
  destruct ((start <? off) && fdt_node_check_compatible n C).
  - unfold FDT_ERR_NOTFOUND. lia.
  - apply IH; [lia | done].
Qed.

(** On a tree whose structure block is corrupt, no query for the next
    compatible node answers "not found". *)
Lemma next_node_of_corrupt_structure (m : gmap Z fdt_blob) (fdt : Z)
    (b : fdt_blob) (startoffset : Z) (C : string) :
  m !! fdt = Some b ->
  fdt_header_status b = 0 ->
  fdt_struct_end b <> - FDT_ERR_NOTFOUND ->
  fdt_node_offset_by_compatible m fdt startoffset C <> - FDT_ERR_NOTFOUND.
Proof.
  intros Hb Hh He. unfold fdt_node_offset_by_compatible.
  rewrite Hb, Hh. cbn [Z.eqb].
  destruct (_ <=? _); [by vm_compute |].
  by apply node_offset_from_not_end.
Qed.

Lemma PopulateIoResources_while_corrupt (FdtBase : Z) (Compatible : string)
    (b : fdt_blob) :
  fdt_header_status b = 0 ->
  fdt_struct_end b <> - FDT_ERR_NOTFOUND ->
  forall (fuel : nat) (Node : Z) (st : PeiState),
    Blobs st !! FdtBase = Some b ->
    Node <> - FDT_ERR_NOTFOUND ->
    PopulateIoResources_while fuel FdtBase Compatible Node st = None.
Proof.
  intros Hh He. induction fuel as [| fuel IH]; intros Node st Hb HN; [done |].
  cbn [PopulateIoResources_while].
  destruct (Z.eqb_spec Node (- FDT_ERR_NOTFOUND)); [done |].
  destruct (loop_body_appends FdtBase Node st) as (l & _ & _ & Hk).
  rewrite Hk. unfold bind at 1, gets at 1.
  apply IH; [done |].
  by apply (next_node_of_corrupt_structure _ _ b).
Qed.

Lemma PopulateIoResources_corrupt (FdtBase : Z) (Compatible : string)
    (b : fdt_blob) (fuel : nat) (st : PeiState) :
  Blobs st !! FdtBase = Some b ->
  fdt_header_status b = 0 ->
  fdt_struct_end b <> - FDT_ERR_NOTFOUND ->
  PopulateIoResources fuel FdtBase Compatible st = None.
Proof.
  intros Hb Hh He. unfold PopulateIoResources, bind at 1, gets at 1.
  apply (PopulateIoResources_while_corrupt _ _ b); try done.
  by apply (next_node_of_corrupt_structure _ _ b).
Qed.

(** * The entry point, path by path *)

Lemma UINT32_range (z : Z) : 0 <= UINT32 z < 2 ^ 32.
Proof. unfold UINT32. apply Z.mod_pos_bound. lia. Qed.

Lemma UINTN_UINT32 (z : Z) : UINTN (UINT32 z) = UINT32 z.
Proof.
  pose proof (UINT32_range z) as H. unfold UINTN, UINT64.
  change (2 ^ 32) with 4294967296 in H.
  change (2 ^ 64) with 18446744073709551616.
  apply Z.mod_small. lia.
Qed.

Lemma tree_pages_ceil (b : fdt_blob) :
  tree_pages b = (UINT32 (fdt_total b) + (EFI_PAGE_SIZE - 1)) / EFI_PAGE_SIZE.
Proof.
  unfold tree_pages. rewrite UINTN_UINT32.
  apply EFI_SIZE_TO_PAGES_ceil.
  pose proof (UINT32_range (fdt_total b)) as H.
  unfold EFI_PAGE_SIZE. change (2 ^ 32) with 4294967296 in H.
  change (2 ^ 64) with 18446744073709551616. lia.
Qed.

Lemma tree_pages_range (b : fdt_blob) : 0 <= tree_pages b < 2 ^ 52.
Proof.
  rewrite tree_pages_ceil. pose proof (UINT32_range (fdt_total b)) as H.
  unfold EFI_PAGE_SIZE. change (2 ^ 32) with 4294967296 in H.
  change (2 ^ 52) with 4503599627370496.
  change (0x1000) with 4096. Z.div_mod_to_equations. lia.
Qed.

(** The byte size of the relocation buffer. *)
Lemma tree_buffer_size (b : fdt_blob) :
  EFI_PAGES_TO_SIZE (tree_pages b) = page_round_up (UINT32 (fdt_total b)).
Proof.
  rewrite EFI_PAGES_TO_SIZE_mul by apply tree_pages_range.
  by rewrite tree_pages_ceil.
Qed.

Lemma AllocatePages_grants (st : PeiState) (Pages : Z) :
  pool_grants st Pages ->
  AllocatePages Pages st
  = Some (PoolTop st - Pages * EFI_PAGE_SIZE,
          set_Pool (PoolTop st - Pages * EFI_PAGE_SIZE)
                   (PoolPages st - Pages) st).
Proof.
  intros [[H1 H2] H3]. unfold AllocatePages.
  destruct (Z.leb_spec Pages 0); [lia |].
  destruct (Z.ltb_spec (PoolPages st) Pages); [lia |].
  destruct (Z.leb_spec (PoolTop st - Pages * EFI_PAGE_SIZE) 0); [lia |].
  reflexivity.
Qed.

Lemma AllocatePages_refuses (st : PeiState) (Pages : Z) :
  ~ pool_grants st Pages -> AllocatePages Pages st = Some (NULL, st).
Proof.
  intros H. unfold AllocatePages, pool_grants in *.
  destruct (Z.leb_spec Pages 0); [done |].
  destruct (Z.ltb_spec (PoolPages st) Pages); [done |].
  destruct (Z.leb_spec (PoolTop st - Pages * EFI_PAGE_SIZE) 0); [done |].
  lia.
Qed.

Lemma INT32_small (z : Z) : 0 <= z < 2 ^ 31 -> INT32 z = z.
Proof.
  intros H. unfold INT32.
  change (2 ^ 31) with 2147483648 in *. change (2 ^ 32) with 4294967296.
  rewrite Z.mod_small; lia.
Qed.

(** A page span of at most 0x7FFFF000 bytes reaches the copy as it is. *)
Lemma copy_bufsize_fits (b : fdt_blob) :
  UINT32 (fdt_total b) <= 0x7FFFF000 ->
  copy_bufsize b = EFI_PAGES_TO_SIZE (tree_pages b)
  /\ UINT32 (fdt_total b) <= copy_bufsize b.
Proof.
  intros H. unfold copy_bufsize. rewrite tree_buffer_size.
  destruct (page_round_up_least (UINT32 (fdt_total b))) as (_ & Hb & Hl).
  pose proof (UINT32_range (fdt_total b)) as Hr.
  assert (Hs : page_round_up (UINT32 (fdt_total b)) <= 0x7FFFF000)
    by (apply Hl; [by vm_compute | done]).
  rewrite INT32_small; [lia |].
  change (2 ^ 31) with 2147483648. lia.
Qed.

(** A longer page span reaches the copy as a size below that of the tree. *)
Lemma copy_bufsize_refused (b : fdt_blob) :
  0x7FFFF000 < UINT32 (fdt_total b) ->
  copy_bufsize b < UINT32 (fdt_total b).
Proof.
  intros H. unfold copy_bufsize. rewrite tree_buffer_size.
  destruct (page_round_up_least (UINT32 (fdt_total b))) as (Hm & Hb & _).
  pose proof (UINT32_range (fdt_total b)) as Hr.
  unfold INT32, EFI_PAGE_SIZE in *. change 0x1000 with 4096 in *.
  change (2 ^ 31) with 2147483648. change (2 ^ 32) with 4294967296 in *.
  Z.div_mod_to_equations. lia.
Qed.

Lemma relocated_fields (fdt_repack : fdt_blob -> Z -> fdt_blob)
    (b : fdt_blob) (st : PeiState) :
  Hobs (relocated fdt_repack b st) = Hobs st
  /\ GuidHobAvailable (relocated fdt_repack b st) = GuidHobAvailable st
  /\ PoolTop (relocated fdt_repack b st)
     = PoolTop st - tree_pages b * EFI_PAGE_SIZE
  /\ PoolPages (relocated fdt_repack b st) = PoolPages st - tree_pages b.
Proof. unfold relocated. by destruct (_ <? _). Qed.

(** The new pages hold the copy when the page span fits a signed 32-bit
    size, and what they held before when it does not. *)
Lemma relocated_new_pages (fdt_repack : fdt_blob -> Z -> fdt_blob)
    (b : fdt_blob) (st : PeiState) :
  (UINT32 (fdt_total b) <= 0x7FFFF000 ->
   Blobs (relocated fdt_repack b st)
     !! (PoolTop st - tree_pages b * EFI_PAGE_SIZE)
   = Some (fdt_repack b (EFI_PAGES_TO_SIZE (tree_pages b))))
  /\ (0x7FFFF000 < UINT32 (fdt_total b) ->
      Blobs (relocated fdt_repack b st) = Blobs st).
Proof.
  unfold relocated. split; intros H.
  - destruct (copy_bufsize_fits b H) as [Heq Hle].
    destruct (Z.ltb_spec (copy_bufsize b) (UINT32 (fdt_total b))); [lia |].
    cbn [Blobs set_Blobs]. rewrite Heq. apply lookup_insert_eq.
  - pose proof (copy_bufsize_refused b H).
    by destruct (Z.ltb_spec (copy_bufsize b) (UINT32 (fdt_total b))); [| lia].
Qed.

Lemma relocated_keeps (fdt_repack : fdt_blob -> Z -> fdt_blob)
    (b : fdt_blob) (st : PeiState) (a : Z) :
  a <> PoolTop st - tree_pages b * EFI_PAGE_SIZE ->
  Blobs (relocated fdt_repack b st) !! a = Blobs st !! a.
Proof.
  intros H. unfold relocated. destruct (_ <? _); [done |].
  cbn [Blobs set_Blobs]. by rewrite lookup_insert_ne.
Qed.

Lemma outside_pool_fresh (st : PeiState) (a Pages : Z) :
  pool_grants st Pages -> outside_pool st a ->
  a <> PoolTop st - Pages * EFI_PAGE_SIZE.
Proof.
  intros [[H1 H2] H3] Ho. unfold outside_pool, EFI_PAGE_SIZE in *. nia.
Qed.

Section Entry.

Variable PcdRiscVDxeFvBase : Z.
Variable PcdRiscVDxeFvSize : Z.
Variable fdt_repack : fdt_blob -> Z -> fdt_blob.

Local Abbreviation Entry :=
  (PlatformPeimInitialization PcdRiscVDxeFvBase PcdRiscVDxeFvSize
                              fdt_repack).

Lemma Entry_null (fuel : nat) (st : PeiState) :
  Entry fuel NULL st = Some (EFI_UNSUPPORTED, st).
Proof. reflexivity. Qed.

Lemma Entry_bad_header (fuel : nat) (DeviceTreeAddress : Z)
    (st : PeiState) :
  fdt_check_header (Blobs st) DeviceTreeAddress <> 0 ->
  Entry fuel DeviceTreeAddress st = Some (EFI_UNSUPPORTED, st).
Proof.
  intros H. unfold PlatformPeimInitialization.
  destruct (DeviceTreeAddress =? NULL); [done |].
  unfold bind at 1, gets at 1.
  destruct (Z.eqb_spec (fdt_check_header (Blobs st) DeviceTreeAddress) 0);
    done.
Qed.

Section Sound.

Variable DeviceTreeAddress : Z.
Variable st : PeiState.
Variable b : fdt_blob.
Hypothesis not_null : DeviceTreeAddress <> NULL.
Hypothesis tree : Blobs st !! DeviceTreeAddress = Some b.
Hypothesis header_ok : fdt_header_status b = 0.
Hypothesis struct_ok : fdt_struct_end b = - FDT_ERR_NOTFOUND.

Lemma Entry_no_pages (fuel : nat) :
  ~ pool_grants st (tree_pages b) ->
  Entry fuel DeviceTreeAddress st = Some (EFI_UNSUPPORTED, st).
Proof.
  intros H. unfold PlatformPeimInitialization.
  destruct (Z.eqb_spec DeviceTreeAddress NULL); [done |].
  unfold bind at 1, gets at 1, fdt_check_header.
  rewrite tree, header_ok. cbn [Z.eqb negb].
  unfold bind at 1, gets at 1, fdt_totalsize. rewrite tree.
  fold (tree_pages b).
  unfold bind at 1. by rewrite AllocatePages_refuses.
Qed.

Lemma Entry_relocates (fuel : nat) :
  pool_grants st (tree_pages b) ->
  Entry fuel DeviceTreeAddress st
  = bind (BuildGuidHob gFdtHobGuid 8) (fun FdtHobData =>
      match FdtHobData with
      | None => ret EFI_UNSUPPORTED
      | Some FdtHobData =>
          bind (store_guid_data FdtHobData
                  (UINTN (PoolTop st - tree_pages b * EFI_PAGE_SIZE)))
            (fun _ =>
          bind (BuildFvHob PcdRiscVDxeFvBase PcdRiscVDxeFvSize) (fun _ =>
          bind (PopulateIoResources fuel DeviceTreeAddress
                  PCIE_COMPATIBLE) (fun _ =>
          bind (AddIoMemoryBaseSizeHob 0xC0000000 0x40000000) (fun _ =>
          bind (PopulateIoResources fuel DeviceTreeAddress
                  SD_COMPATIBLE) (fun _ =>
          ret EFI_SUCCESS)))))
      end) (relocated fdt_repack b st).
Proof.
  intros H. unfold PlatformPeimInitialization.
  destruct (Z.eqb_spec DeviceTreeAddress NULL); [done |].
  unfold bind at 1, gets at 1, fdt_check_header.
  rewrite tree, header_ok. cbn [Z.eqb negb].
  unfold bind at 1, gets at 1, fdt_totalsize. rewrite tree.
  fold (tree_pages b).
  unfold bind at 1. rewrite AllocatePages_grants by done.
  destruct H as [[Hp _] Hn].
  destruct (Z.eqb_spec (PoolTop st - tree_pages b * EFI_PAGE_SIZE) NULL)
    as [E | _]; [unfold NULL in E; lia |].
  unfold bind at 1, fdt_open_into at 1.
  cbn [Blobs set_Pool]. rewrite tree, header_ok. cbn [Z.eqb].
  unfold relocated, copy_bufsize.
  by destruct (_ <? _).
Qed.

Lemma Entry_no_announcement (fuel : nat) :
  pool_grants st (tree_pages b) ->
  GuidHobAvailable st = false ->
  Entry fuel DeviceTreeAddress st
  = Some (EFI_UNSUPPORTED, relocated fdt_repack b st).
Proof.
  intros H Hg. rewrite Entry_relocates by done.
  destruct (relocated_fields fdt_repack b st) as (_ & Hg1 & _).
  unfold bind, BuildGuidHob. by rewrite Hg1, Hg.
Qed.

Lemma Entry_success (fuel : nat) :
  pool_grants st (tree_pages b) ->
  GuidHobAvailable st = true ->
  outside_pool st DeviceTreeAddress ->
  (length (fdt_nodes b) < fuel)%nat ->
  Entry fuel DeviceTreeAddress st
  = Some (EFI_SUCCESS,
          set_Hobs
            (Hobs st
             ++ phase_records PcdRiscVDxeFvBase PcdRiscVDxeFvSize b st)
            (relocated fdt_repack b st)).
Proof.
  intros H Hg Ho Hf. rewrite Entry_relocates by done.
  assert (Hb : Blobs (relocated fdt_repack b st) !! DeviceTreeAddress
               = Some b).
  { rewrite relocated_keeps; [done |]. by apply outside_pool_fresh. }
  destruct (relocated_fields fdt_repack b st) as (Hh1 & Hg1 & _).
  generalize dependent (relocated fdt_repack b st). intros st1 Hb Hh1 Hg1.
  unfold bind at 1, BuildGuidHob. rewrite Hg1, Hg.
  unfold bind at 1, store_guid_data, modify.
  unfold bind at 1, BuildFvHob, modify.
  cbn [Hobs set_Hobs].
  rewrite set_Hobs_set_Hobs.
  unfold bind at 1.
  rewrite (PopulateIoResources_scan _ _ b) by done.
  unfold bind at 1. rewrite AddIoMemoryBaseSizeHob_eq.
  unfold bind at 1.
  rewrite (PopulateIoResources_scan _ _ b) by done.
  cbn [Hobs set_Hobs]. rewrite !set_Hobs_set_Hobs.
  unfold ret, phase_records. do 3 f_equal.
  rewrite alter_app_r_alt by lia. rewrite Nat.sub_diag. cbn [alter list_alter].
  rewrite Hh1, <- !app_assoc. reflexivity.
Qed.

End Sound.

End Entry.

(** On a header-valid tree with a corrupt structure block, once the pages
    and the announcement are had, the first scan never returns. *)
Lemma Entry_corrupt_structure (PcdRiscVDxeFvBase PcdRiscVDxeFvSize : Z)
    (fdt_repack : fdt_blob -> Z -> fdt_blob) (fuel : nat)
    (DeviceTreeAddress : Z) (st : PeiState) (b : fdt_blob) :
  DeviceTreeAddress <> NULL ->
  Blobs st !! DeviceTreeAddress = Some b ->
  fdt_header_status b = 0 ->
  fdt_struct_end b <> - FDT_ERR_NOTFOUND ->
  pool_grants st (tree_pages b) ->
  GuidHobAvailable st = true ->
  outside_pool st DeviceTreeAddress ->
  PlatformPeimInitialization PcdRiscVDxeFvBase PcdRiscVDxeFvSize fdt_repack
    fuel DeviceTreeAddress st = None.
Proof.
  intros Hnn Hb Hh He Hp Hg Ho.
  rewrite (Entry_relocates _ _ _ _ _ b) by done.
  assert (Hb1 : Blobs (relocated fdt_repack b st) !! DeviceTreeAddress
                = Some b).
  { rewrite relocated_keeps; [done |]. by apply outside_pool_fresh. }
  destruct (relocated_fields fdt_repack b st) as (_ & Hg1 & _).
  unfold bind at 1, BuildGuidHob. rewrite Hg1, Hg.
  unfold bind at 1, store_guid_data, modify.
  unfold bind at 1, BuildFvHob, modify.
  unfold bind at 1.
  by rewrite (PopulateIoResources_corrupt _ _ b).
Qed.

(** * The Normalizer: rounding and the 64-bit range *)

(** C2, as stated, fails: at size 2^64 - 1 the next multiple of the page
    size is 2^64, beyond the 64-bit range, yet the call returns and a record
    of size 0 is in the store. *)
Lemma normalizer_wraps_instead_of_failing :
  2 ^ 64 <= page_round_up (2 ^ 64 - 1)
  /\ AddIoMemoryBaseSizeHob 0x1000 (2 ^ 64 - 1) (board_state board_tree)
     = Some (tt, set_Hobs [mmio 0x1000 0] (board_state board_tree)).
Proof. split; [by vm_compute | reflexivity]. Qed.

(** C2, amended: for every 64-bit size the Normalizer returns and appends
    exactly one record; its size is the size rounded up to the next multiple
    of the page size, reduced modulo 2^64, which is 0 whenever the rounded
    size leaves the 64-bit range. *)
Theorem normalizer_never_fails (MemoryBase MemorySize : Z) (st : PeiState) :
  0 <= MemorySize < 2 ^ 64 ->
  AddIoMemoryBaseSizeHob MemoryBase MemorySize st
  = Some (tt, set_Hobs
                (Hobs st ++ [mmio MemoryBase
                               (page_round_up MemorySize mod 2 ^ 64)]) st)
  /\ (2 ^ 64 <= page_round_up MemorySize ->
      page_round_up MemorySize mod 2 ^ 64 = 0).
Proof.
  intros H. split.
  - rewrite AddIoMemoryBaseSizeHob_eq. unfold io_record, mmio, UINT64.
    by rewrite ALIGN_VALUE_page.
  - intros Hov. destruct (page_round_up_least MemorySize) as (Hm & Hb & _).
    unfold EFI_PAGE_SIZE in *. change 0x1000 with 4096 in *.
    change (2 ^ 64) with 18446744073709551616 in *.
    Z.div_mod_to_equations. lia.
Qed.

Lemma normalizer_never_fails_witness :
  0 <= 2 ^ 64 - 5 < 2 ^ 64
  /\ AddIoMemoryBaseSizeHob 0x7000 (2 ^ 64 - 5) (board_state board_tree)
     = Some (tt, set_Hobs
                   (Hobs (board_state board_tree)
                    ++ [mmio 0x7000 (page_round_up (2 ^ 64 - 5) mod 2 ^ 64)])
                   (board_state board_tree)).
Proof.
  split; [lia |].
  apply (normalizer_never_fails 0x7000 (2 ^ 64 - 5)
           (board_state board_tree)).
  lia.
Defined.

(** C5, as stated, fails: at size 2^64 - 1 the recorded size is 0, which
    is not at least the input. *)
Lemma normalizer_size_below_input :
  AddIoMemoryBaseSizeHob 0x1000 (2 ^ 64 - 1) (board_state board_tree)
  = Some (tt, set_Hobs [mmio 0x1000 0] (board_state board_tree))
  /\ ~ least_page_multiple (2 ^ 64 - 1) 0.
Proof.
  split; [reflexivity |]. intros (_ & H & _). lia.
Qed.

(** C5, amended: for every 64-bit size not above 2^64 - 4096 (the largest
    multiple of the page size in the 64-bit range), the recorded size is the
    smallest multiple of the page size that is at least the input; it equals
    the input when the input is a multiple of the page size. *)
Theorem normalizer_rounds_up (MemoryBase MemorySize : Z) (st : PeiState) :
  0 <= MemorySize <= 2 ^ 64 - EFI_PAGE_SIZE ->
  exists s,
    AddIoMemoryBaseSizeHob MemoryBase MemorySize st
    = Some (tt, set_Hobs (Hobs st ++ [mmio MemoryBase s]) st)
    /\ least_page_multiple MemorySize s
    /\ (MemorySize mod EFI_PAGE_SIZE = 0 -> s = MemorySize).
Proof.
  intros H. exists (page_round_up MemorySize).
  destruct (page_round_up_least MemorySize) as (Hm & Hb & Hl).
  assert (Hs : page_round_up MemorySize <= 2 ^ 64 - EFI_PAGE_SIZE).
  { apply Hl; [| lia]. by vm_compute. }
  split; [| split; [unfold least_page_multiple; intuition lia
                    | apply page_round_up_aligned]].
  rewrite AddIoMemoryBaseSizeHob_eq. unfold io_record, mmio, UINT64.
  rewrite ALIGN_VALUE_page. rewrite Z.mod_small; [done |].
  unfold EFI_PAGE_SIZE in *. lia.
Qed.

Lemma normalizer_rounds_up_witness :
  0 <= 0x1001 <= 2 ^ 64 - EFI_PAGE_SIZE
  /\ exists s,
       AddIoMemoryBaseSizeHob 0x7000 0x1001 (board_state board_tree)
       = Some (tt, set_Hobs (Hobs (board_state board_tree)
                             ++ [mmio 0x7000 s]) (board_state board_tree))
       /\ least_page_multiple 0x1001 s
       /\ (0x1001 mod EFI_PAGE_SIZE = 0 -> s = 0x1001).
Proof.
  assert (H : 0 <= 0x1001 <= 2 ^ 64 - EFI_PAGE_SIZE)
    by (unfold EFI_PAGE_SIZE; lia).
  split; [exact H |].
  exact (normalizer_rounds_up 0x7000 0x1001 (board_state board_tree) H).
Defined.

(** * The Scanner: records per node *)

Lemma UINTN_small (z : Z) : 0 <= z < 2 ^ 64 -> UINTN z = z.
Proof. intros H. unfold UINTN, UINT64. by apply Z.mod_small. Qed.

Lemma scan_records_split (b : fdt_blob) (C : string)
    (pre post : list fdt_node) (n : fdt_node) :
  fdt_nodes b = pre ++ n :: post ->
  scan_records b C
  = flat_map (node_records b C) pre ++ node_records b C n
    ++ flat_map (node_records b C) post.
Proof.
  intros H. unfold scan_records. rewrite H, flat_map_app. reflexivity.
Qed.

(** Only the compatible nodes contribute. *)
Lemma scan_records_filter (b : fdt_blob) (C : string) (l : list fdt_node) :
  flat_map (node_records b C) l
  = flat_map (node_records b C)
      (List.filter (fun n => fdt_node_check_compatible n C) l).
Proof.
  induction l as [| n l IH]; [done |].
  cbn [flat_map List.filter].
  destruct (fdt_node_check_compatible n C) eqn:Hc.
  - cbn [flat_map]. by rewrite IH.
  - unfold node_records at 1. by rewrite Hc.
Qed.

Lemma node_records_words (b : fdt_blob) (C : string) (n : fdt_node)
    (p : fdt_property) :
  fdt_node_check_compatible n C = true ->
  fdt_find_prop n "reg" = Some p ->
  0 <= prop_len p < 2 ^ 64 ->
  node_records b C n
  = io_record (reg_word b p 0) (reg_word b p 1)
    :: (if prop_len p >? 16
        then [io_record (reg_word b p 2) (reg_word b p 3)]
        else []).
Proof.
  intros Hc Hp Hl. unfold node_records. rewrite Hc, Hp.
  by rewrite UINTN_small.
Qed.

Lemma two_word_nodes_records (b : fdt_blob) (C : string)
    (l : list fdt_node) :
  (forall n, In n l ->
     fdt_node_check_compatible n C = true
     /\ exists p, fdt_find_prop n "reg" = Some p /\ prop_len p = 16) ->
  Forall2 (first_window b) l (flat_map (node_records b C) l).
Proof.
  induction l as [| n l IH]; intros H; [constructor |].
  destruct (H n) as (Hc & p & Hp & Hl); [by left |].
  cbn [flat_map].
  rewrite (node_records_words b C n p) by (done || (rewrite Hl; lia)).
  rewrite Hl. cbn. constructor.
  - by exists p.
  - apply IH. intros m Hm. apply H. by right.
Qed.

(** C6: a scan of a sound tree in which every node compatible with the
    scanned string carries a reg property of two 64-bit words returns and
    appends exactly one record per compatible node, N in all, in the order
    of the nodes in the tree; each is the record of the node's (base, size)
    pair. *)
Theorem scan_two_word_nodes (FdtBase : Z) (Compatible : string)
    (b : fdt_blob) (fuel : nat) (st : PeiState) (N : nat) :
  Blobs st !! FdtBase = Some b ->
  fdt_header_status b = 0 ->
  fdt_struct_end b = - FDT_ERR_NOTFOUND ->
  (length (fdt_nodes b) < fuel)%nat ->
  (forall n, In n (fdt_nodes b) ->
     fdt_node_check_compatible n Compatible = true ->
     exists p, fdt_find_prop n "reg" = Some p /\ prop_len p = 16) ->
  length (List.filter (fun n => fdt_node_check_compatible n Compatible)
                      (fdt_nodes b)) = N ->
  exists recs,
    PopulateIoResources fuel FdtBase Compatible st
    = Some (tt, set_Hobs (Hobs st ++ recs) st)
    /\ length recs = N
    /\ Forall2 (first_window b)
         (List.filter (fun n => fdt_node_check_compatible n Compatible)
                      (fdt_nodes b))
         recs.
Proof.
  intros Hb Hh Hs Hf Hreg HN.
  exists (scan_records b Compatible).
  assert (HF : Forall2 (first_window b)
                 (List.filter
                    (fun n => fdt_node_check_compatible n Compatible)
                    (fdt_nodes b))
                 (scan_records b Compatible)).
  { unfold scan_records. rewrite scan_records_filter.
    apply two_word_nodes_records. intros n Hn.
    apply filter_In in Hn as [Hn Hc]. split; [done |]. by apply Hreg. }
  split; [by apply PopulateIoResources_scan |].
  split; [| done].
  apply Forall2_length in HF. lia.
Qed.

Lemma scan_two_word_nodes_witness :
  exists recs,
    PopulateIoResources 4 BOARD_FDT SD_COMPATIBLE (board_state board_tree)
    = Some (tt, set_Hobs (Hobs (board_state board_tree) ++ recs)
                         (board_state board_tree))
    /\ length recs = 1%nat
    /\ Forall2 (first_window board_tree)
         (List.filter (fun n => fdt_node_check_compatible n SD_COMPATIBLE)
                      (fdt_nodes board_tree))
         recs.
Proof.
  apply (scan_two_word_nodes BOARD_FDT SD_COMPATIBLE board_tree 4
           (board_state board_tree) 1).
  - reflexivity.
  - reflexivity.
  - reflexivity.
  - simpl. lia.
  - intros n Hn Hc. simpl in Hn.
    destruct Hn as [<- | [<- | [<- | []]]];
      [discriminate Hc | discriminate Hc |].
    exists (reg_prop 48 16). split; reflexivity.
  - reflexivity.
Defined.

(** The words of a property of 32 bytes. *)
Lemma reg_words_four (b : fdt_blob) (p : fdt_property) :
  prop_len p = 32 ->
  reg_words b p
  = [reg_word b p 0; reg_word b p 1; reg_word b p 2; reg_word b p 3].
Proof. intros H. unfold reg_words. rewrite H. reflexivity. Qed.

(** C7: when a compatible node of a sound tree has a reg property of
    exactly four 64-bit words, the scan appends exactly two records for that
    node, between the
    records of the nodes before it and of those after it: first the record
    of the first pair of words, then the record of the second pair. *)
Theorem scan_four_word_node (FdtBase : Z) (Compatible : string)
    (b : fdt_blob) (fuel : nat) (st : PeiState)
    (pre post : list fdt_node) (n : fdt_node) (p : fdt_property)
    (w0 w1 w2 w3 : Z) :
  Blobs st !! FdtBase = Some b ->
  fdt_header_status b = 0 ->
  fdt_struct_end b = - FDT_ERR_NOTFOUND ->
  (length (fdt_nodes b) < fuel)%nat ->
  fdt_nodes b = pre ++ n :: post ->
  fdt_node_check_compatible n Compatible = true ->
  fdt_find_prop n "reg" = Some p ->
  prop_len p = 32 ->
  reg_words b p = [w0; w1; w2; w3] ->
  PopulateIoResources fuel FdtBase Compatible st
  = Some (tt, set_Hobs
                (Hobs st
                 ++ flat_map (node_records b Compatible) pre
                 ++ [io_record w0 w1; io_record w2 w3]
                 ++ flat_map (node_records b Compatible) post) st).
Proof.
  intros Hb Hh Hs Hf Hn Hc Hp Hl Hw.
  rewrite (PopulateIoResources_scan _ _ b) by done.
  rewrite (scan_records_split b Compatible pre post n Hn).
  rewrite (node_records_words b Compatible n p) by (done || (rewrite Hl; lia)).
  rewrite reg_words_four in Hw by done.
  injection Hw as <- <- <- <-. by rewrite Hl.
Qed.

Lemma scan_four_word_node_witness :
  PopulateIoResources 4 BOARD_FDT PCIE_COMPATIBLE (board_state board_tree)
  = Some (tt, set_Hobs
                (Hobs (board_state board_tree)
                 ++ flat_map (node_records board_tree PCIE_COMPATIBLE)
                      [ {| node_compatible := ["sophgo,sg2042"];
                           node_props := [] |} ]
                 ++ [io_record 0x4000000000 0x10000000;
                     io_record 0x5000000000 0x1000000]
                 ++ flat_map (node_records board_tree PCIE_COMPATIBLE)
                      [ {| node_compatible := ["bitmain,bm-sd"];
                           node_props := [reg_prop 48 16] |} ])
                (board_state board_tree)).
Proof.
  apply (scan_four_word_node BOARD_FDT PCIE_COMPATIBLE board_tree 4
           (board_state board_tree) _ _
           {| node_compatible := ["sophgo,cdns-pcie-host"];
              node_props := [reg_prop 16 32] |}
           (reg_prop 16 32)); try reflexivity.
  simpl. lia.
Defined.

(** C1, as stated, fails: the nodes with one and with three words are not
    skipped; the scan leaves one record for the first and two for the
    second, the sizes of the first and the last read from the bytes that
    follow the property. *)
Lemma malformed_reg_not_skipped :
  length (reg_words stray_tree (reg_prop 16 8)) = 1%nat
  /\ length (reg_words stray_tree (reg_prop 32 24)) = 3%nat
  /\ PopulateIoResources 4 BOARD_FDT SD_COMPATIBLE (board_state stray_tree)
     = Some (tt, set_Hobs [mmio 0x6000000000 0x200001000;
                           mmio 0x7000000000 0x1000;
                           mmio 0x8000000000 0x200001000]
                          (board_state stray_tree)).
Proof. repeat split; by vm_compute. Qed.

(** C1, amended: a compatible node of a sound tree whose reg property is
    present but holds one or three 64-bit words is not skipped. With one
    word the scan appends one record for the node, whose base is that word;
    with three words it appends two, the record of the first pair of words
    and then a record whose base is the third word. In both cases the scan
    goes on to the remaining nodes. *)
Theorem scan_malformed_reg (FdtBase : Z) (Compatible : string)
    (b : fdt_blob) (fuel : nat) (st : PeiState)
    (pre post : list fdt_node) (n : fdt_node) (p : fdt_property) :
  Blobs st !! FdtBase = Some b ->
  fdt_header_status b = 0 ->
  fdt_struct_end b = - FDT_ERR_NOTFOUND ->
  (length (fdt_nodes b) < fuel)%nat ->
  fdt_nodes b = pre ++ n :: post ->
  fdt_node_check_compatible n Compatible = true ->
  fdt_find_prop n "reg" = Some p ->
  prop_len p = 8 \/ prop_len p = 24 ->
  exists recs,
    PopulateIoResources fuel FdtBase Compatible st
    = Some (tt, set_Hobs
                  (Hobs st
                   ++ flat_map (node_records b Compatible) pre
                   ++ recs
                   ++ flat_map (node_records b Compatible) post) st)
    /\ (prop_len p = 8 ->
        exists s, recs = [mmio (reg_word b p 0) s])
    /\ (prop_len p = 24 ->
        exists s, recs = [io_record (reg_word b p 0) (reg_word b p 1);
                          mmio (reg_word b p 2) s]).
Proof.
  intros Hb Hh Hs Hf Hn Hc Hp Hl.
  exists (node_records b Compatible n). split.
  - rewrite (PopulateIoResources_scan _ _ b) by done.
    by rewrite (scan_records_split b Compatible pre post n Hn).
  - rewrite (node_records_words b Compatible n p) by (done || lia).
    split; intros E; rewrite E; cbn; eexists; reflexivity.
Qed.

Lemma scan_malformed_reg_witness :
  exists recs,
    PopulateIoResources 4 BOARD_FDT SD_COMPATIBLE (board_state stray_tree)
    = Some (tt, set_Hobs
                  (Hobs (board_state stray_tree)
                   ++ flat_map (node_records stray_tree SD_COMPATIBLE)
                        [ {| node_compatible := ["sophgo,sg2042"];
                             node_props := [] |} ]
                   ++ recs
                   ++ flat_map (node_records stray_tree SD_COMPATIBLE)
                        [ {| node_compatible := ["bitmain,bm-sd"];
                             node_props := [reg_prop 32 24] |} ])
                  (board_state stray_tree))
    /\ (prop_len (reg_prop 16 8) = 8 ->
        exists s, recs = [mmio (reg_word stray_tree (reg_prop 16 8) 0) s])
    /\ (prop_len (reg_prop 16 8) = 24 ->
        exists s,
          recs = [io_record (reg_word stray_tree (reg_prop 16 8) 0)
                            (reg_word stray_tree (reg_prop 16 8) 1);
                  mmio (reg_word stray_tree (reg_prop 16 8) 2) s]).
Proof.
  apply (scan_malformed_reg BOARD_FDT SD_COMPATIBLE stray_tree 4
           (board_state stray_tree) _ _
           {| node_compatible := ["bitmain,bm-sd"];
              node_props := [reg_prop 16 8] |}
           (reg_prop 16 8)); try reflexivity.
  - simpl. lia.
  - left. reflexivity.
Defined.

(** * The entry point *)

Lemma EFI_UNSUPPORTED_not_success : EFI_UNSUPPORTED <> EFI_SUCCESS.
Proof. by vm_compute. Qed.

(** C3: when the tree pointer is NULL or the header of the tree does not
    validate, the entry point answers the failure status and leaves the
    state, and with it the record store, as it found it: no resource record,
    no relocated-tree record, no firmware-volume record. *)
Theorem entry_rejects_bad_tree (PcdRiscVDxeFvBase PcdRiscVDxeFvSize : Z)
    (fdt_repack : fdt_blob -> Z -> fdt_blob) (fuel : nat)
    (DeviceTreeAddress : Z) (st : PeiState) :
  DeviceTreeAddress = NULL
  \/ fdt_check_header (Blobs st) DeviceTreeAddress <> 0 ->
  exists st',
    PlatformPeimInitialization PcdRiscVDxeFvBase PcdRiscVDxeFvSize fdt_repack
      fuel DeviceTreeAddress st = Some (EFI_UNSUPPORTED, st')
    /\ EFI_UNSUPPORTED <> EFI_SUCCESS
    /\ Hobs st' = Hobs st
    /\ st' = st.
Proof.
  intros H. exists st.
  split; [| by split; [apply EFI_UNSUPPORTED_not_success |]].
  destruct H as [-> | H].
  - apply Entry_null.
  - by apply Entry_bad_header.
Qed.

Lemma entry_rejects_bad_tree_witness :
  (exists st',
     PlatformPeimInitialization 0x2000000 0x800000 libfdt_repack 4
       NULL (board_state board_tree) = Some (EFI_UNSUPPORTED, st')
     /\ EFI_UNSUPPORTED <> EFI_SUCCESS
     /\ Hobs st' = Hobs (board_state board_tree)
     /\ st' = board_state board_tree)
  /\ (exists st',
        PlatformPeimInitialization 0x2000000 0x800000 libfdt_repack 4
          BOARD_FDT (board_state corrupt_tree) = Some (EFI_UNSUPPORTED, st')
        /\ EFI_UNSUPPORTED <> EFI_SUCCESS
        /\ Hobs st' = Hobs (board_state corrupt_tree)
        /\ st' = board_state corrupt_tree).
Proof.
  split.
  - apply (entry_rejects_bad_tree 0x2000000 0x800000 libfdt_repack 4 NULL
             (board_state board_tree)).
    left. reflexivity.
  - apply (entry_rejects_bad_tree 0x2000000 0x800000 libfdt_repack 4
             BOARD_FDT (board_state corrupt_tree)).
    right. vm_compute. discriminate.
Defined.

Lemma reg_words_two (b : fdt_blob) (p : fdt_property) :
  prop_len p = 16 -> reg_words b p = [reg_word b p 0; reg_word b p 1].
Proof. intros H. unfold reg_words. rewrite H. reflexivity. Qed.

Lemma scan_records_single (b : fdt_blob) (C : string) (n : fdt_node) :
  List.filter (fun n => fdt_node_check_compatible n C) (fdt_nodes b) = [n] ->
  scan_records b C = node_records b C n.
Proof.
  intros H. unfold scan_records. rewrite scan_records_filter, H.
  cbn. apply app_nil_r.
Qed.

Lemma scan_records_none (b : fdt_blob) (C : string) :
  List.filter (fun n => fdt_node_check_compatible n C) (fdt_nodes b) = [] ->
  scan_records b C = [].
Proof.
  intros H. unfold scan_records. by rewrite scan_records_filter, H.
Qed.

Lemma filter_single_compatible (C : string) (l : list fdt_node)
    (n : fdt_node) :
  List.filter (fun n => fdt_node_check_compatible n C) l = [n] ->
  fdt_node_check_compatible n C = true.
Proof.
  intros H.
  assert (Hin : In n (List.filter (fun n => fdt_node_check_compatible n C) l))
    by (rewrite H; by left).
  by apply filter_In in Hin as [_ Hc].
Qed.

(** C4: on a sound tree whose only host-bridge node has the four reg words
    0x4000000000, 0x10000000, 0x5000000000, 0x1000000 and whose only storage
    node has the two reg words 0x6000000000, 0x1000, with pages and an
    announcement record to be had, the entry point succeeds and appends, in
    this order: the relocated-tree announcement (carrying the address of the
    fresh pages, which hold the copy whenever their byte size fits the
    signed 32-bit size of the copy), the firmware-volume announcement, the
    two records of the host bridge, the fixed record of the inbound window,
    and the record of the storage controller. *)
Theorem entry_end_to_end (PcdRiscVDxeFvBase PcdRiscVDxeFvSize : Z)
    (fdt_repack : fdt_blob -> Z -> fdt_blob) (fuel : nat)
    (DeviceTreeAddress : Z) (st : PeiState) (b : fdt_blob)
    (host sd : fdt_node) (host_reg sd_reg : fdt_property) :
  DeviceTreeAddress <> NULL ->
  Blobs st !! DeviceTreeAddress = Some b ->
  fdt_header_status b = 0 ->
  fdt_struct_end b = - FDT_ERR_NOTFOUND ->
  pool_grants st (tree_pages b) ->
  GuidHobAvailable st = true ->
  outside_pool st DeviceTreeAddress ->
  (length (fdt_nodes b) < fuel)%nat ->
  List.filter (fun n => fdt_node_check_compatible n PCIE_COMPATIBLE)
              (fdt_nodes b) = [host] ->
  fdt_find_prop host "reg" = Some host_reg ->
  prop_len host_reg = 32 ->
  reg_words b host_reg
  = [0x4000000000; 0x10000000; 0x5000000000; 0x1000000] ->
  List.filter (fun n => fdt_node_check_compatible n SD_COMPATIBLE)
              (fdt_nodes b) = [sd] ->
  fdt_find_prop sd "reg" = Some sd_reg ->
  prop_len sd_reg = 16 ->
  reg_words b sd_reg = [0x6000000000; 0x1000] ->
  exists st' NewBase,
    PlatformPeimInitialization PcdRiscVDxeFvBase PcdRiscVDxeFvSize fdt_repack
      fuel DeviceTreeAddress st = Some (EFI_SUCCESS, st')
    /\ NewBase = PoolTop st'
    /\ (UINT32 (fdt_total b) <= 0x7FFFF000 ->
        Blobs st' !! NewBase
        = Some (fdt_repack b (EFI_PAGES_TO_SIZE (tree_pages b))))
    /\ Hobs st'
       = Hobs st
         ++ [HobGuidExtension gFdtHobGuid (UINTN NewBase);
             HobFirmwareVolume PcdRiscVDxeFvBase PcdRiscVDxeFvSize;
             mmio 0x4000000000 0x10000000;
             mmio 0x5000000000 0x1000000;
             mmio 0xC0000000 0x40000000;
             mmio 0x6000000000 0x1000].
Proof.
  intros Hnn Hb Hh Hs Hp Hg Ho Hf Hhost Hhr Hhl Hhw Hsd Hsr Hsl Hsw.
  eexists _, (PoolTop st - tree_pages b * EFI_PAGE_SIZE).
  destruct (relocated_fields fdt_repack b st) as (_ & _ & Htop & _).
  split; [by apply Entry_success |].
  split; [cbn [PoolTop set_Hobs]; by rewrite Htop |].
  split.
  - intros HS. cbn [Blobs set_Hobs]. by apply relocated_new_pages.
  - cbn [Hobs set_Hobs]. f_equal. unfold phase_records.
    rewrite (scan_records_single _ _ _ Hhost), (scan_records_single _ _ _ Hsd).
    rewrite (node_records_words b _ host host_reg);
      [| by eapply filter_single_compatible | done | rewrite Hhl; lia].
    rewrite (node_records_words b _ sd sd_reg);
      [| by eapply filter_single_compatible | done | rewrite Hsl; lia].
    rewrite reg_words_four in Hhw by done.
    rewrite reg_words_two in Hsw by done.
    injection Hhw as -> -> -> ->. injection Hsw as -> ->.
    rewrite Hhl, Hsl. reflexivity.
Qed.

Lemma entry_end_to_end_witness :
  exists st' NewBase,
    PlatformPeimInitialization 0x2000000 0x800000 libfdt_repack 4 BOARD_FDT
      (board_state board_tree) = Some (EFI_SUCCESS, st')
    /\ NewBase = PoolTop st'
    /\ (UINT32 (fdt_total board_tree) <= 0x7FFFF000 ->
        Blobs st' !! NewBase
        = Some (libfdt_repack board_tree
                  (EFI_PAGES_TO_SIZE (tree_pages board_tree))))
    /\ Hobs st'
       = Hobs (board_state board_tree)
         ++ [HobGuidExtension gFdtHobGuid (UINTN NewBase);
             HobFirmwareVolume 0x2000000 0x800000;
             mmio 0x4000000000 0x10000000;
             mmio 0x5000000000 0x1000000;
             mmio 0xC0000000 0x40000000;
             mmio 0x6000000000 0x1000].
Proof.
  apply (entry_end_to_end 0x2000000 0x800000 libfdt_repack 4 BOARD_FDT
           (board_state board_tree) board_tree
           {| node_compatible := ["sophgo,cdns-pcie-host"];
              node_props := [reg_prop 16 32] |}
           {| node_compatible := ["bitmain,bm-sd"];
              node_props := [reg_prop 48 16] |}
           (reg_prop 16 32) (reg_prop 48 16)); try reflexivity.
  - discriminate.
  - repeat split; vm_compute; congruence.
  - left. vm_compute. reflexivity.
  - simpl. lia.
Defined.

Lemma pages_covering_ceil (Size : Z) :
  EFI_PAGE_SIZE * (pages_covering Size - 1) < Size
  <= EFI_PAGE_SIZE * pages_covering Size.
Proof.
  unfold pages_covering, EFI_PAGE_SIZE. change 0x1000 with 4096.
  Z.div_mod_to_equations. lia.
Qed.




Lemma Entry_status (PcdRiscVDxeFvBase PcdRiscVDxeFvSize : Z)
    (fdt_repack : fdt_blob -> Z -> fdt_blob) (fuel : nat)
    (DeviceTreeAddress : Z) (st : PeiState) (r : EFI_STATUS)
    (st' : PeiState) :
  PlatformPeimInitialization PcdRiscVDxeFvBase PcdRiscVDxeFvSize fdt_repack
    fuel DeviceTreeAddress st = Some (r, st') ->
  r = EFI_SUCCESS \/ r = EFI_UNSUPPORTED.
Proof.
  unfold PlatformPeimInitialization. intros H.
  destruct (DeviceTreeAddress =? NULL);
    [injection H as <- _; by right |].
  unfold bind at 1, gets at 1 in H.
  destruct (negb _); [injection H as <- _; by right |].
  unfold bind at 1, gets at 1 in H. unfold bind at 1 in H.
  destruct (AllocatePages _ st) as [[NewBase st1] |]; [| done].
  destruct (NewBase =? NULL); [injection H as <- _; by right |].
  unfold bind at 1 in H.
  destruct (fdt_open_into _ _ _ _ st1) as [[e st2] |]; [| done].
  unfold bind at 1 in H.
  destruct (BuildGuidHob gFdtHobGuid 8 st2) as [[[i |] st3] |];
    [| injection H as <- _; by right | done].
  unfold bind at 1, store_guid_data, modify in H.
  unfold bind at 1, BuildFvHob, modify in H.
  unfold bind at 1 in H.
  destruct (PopulateIoResources fuel DeviceTreeAddress _ _)
    as [[[] st4] |]; [| done].
  unfold bind at 1 in H. rewrite AddIoMemoryBaseSizeHob_eq in H.
  unfold bind at 1 in H.
  destruct (PopulateIoResources fuel DeviceTreeAddress _ _)
    as [[[] st5] |]; [| done].
  injection H as <- _. by left.
Qed.

(** C9, as stated, fails: on the board tree with a corrupt structure block
    the header validates, the pages and the announcement are had, and the
    first scan never ends, so the entry point returns no outcome at all,
    whatever the fuel. *)
Lemma entry_never_returns_on_corrupt_structure :
  fdt_check_header (Blobs (board_state broken_tree)) BOARD_FDT = 0
  /\ forall fuel,
       PlatformPeimInitialization 0x2000000 0x800000 libfdt_repack fuel
         BOARD_FDT (board_state broken_tree) = None.
Proof.
  split; [reflexivity |]. intros fuel.
  apply (Entry_corrupt_structure _ _ _ _ _ _ broken_tree); try reflexivity.
  - discriminate.
  - discriminate.
  - repeat split; vm_compute; congruence.
  - left. vm_compute. reflexivity.
Qed.

(** C9, amended: the entry point has two outcomes. Whenever it returns, the
    status is the success status or the failure status, and the two differ;
    with fuel beyond the number of nodes it does return on every tree that
    lies outside the free pool and whose structure block, if its header
    validates, is well formed; and on a sound tree none of whose nodes is
    compatible with either scanned string, with pages and an announcement
    record to be had, it returns success, having appended the two
    announcements and the fixed record only. *)
Theorem entry_two_outcomes (PcdRiscVDxeFvBase PcdRiscVDxeFvSize : Z)
    (fdt_repack : fdt_blob -> Z -> fdt_blob) (fuel : nat)
    (DeviceTreeAddress : Z) (st : PeiState) :
  let Entry :=
    PlatformPeimInitialization PcdRiscVDxeFvBase PcdRiscVDxeFvSize fdt_repack
      fuel DeviceTreeAddress st in
  EFI_SUCCESS <> EFI_UNSUPPORTED
  /\ (forall r st', Entry = Some (r, st') ->
        r = EFI_SUCCESS \/ r = EFI_UNSUPPORTED)
  /\ (outside_pool st DeviceTreeAddress ->
      (forall b, Blobs st !! DeviceTreeAddress = Some b ->
                 fdt_header_status b = 0 ->
                 fdt_struct_end b = - FDT_ERR_NOTFOUND) ->
      (forall b, Blobs st !! DeviceTreeAddress = Some b ->
                 (length (fdt_nodes b) < fuel)%nat) ->
      exists r st', Entry = Some (r, st'))
  /\ (forall b,
        DeviceTreeAddress <> NULL ->
        Blobs st !! DeviceTreeAddress = Some b ->
        fdt_header_status b = 0 ->
        fdt_struct_end b = - FDT_ERR_NOTFOUND ->
        pool_grants st (tree_pages b) ->
        GuidHobAvailable st = true ->
        outside_pool st DeviceTreeAddress ->
        (length (fdt_nodes b) < fuel)%nat ->
        List.filter (fun n => fdt_node_check_compatible n PCIE_COMPATIBLE)
                    (fdt_nodes b) = [] ->
        List.filter (fun n => fdt_node_check_compatible n SD_COMPATIBLE)
                    (fdt_nodes b) = [] ->
        exists st',
          Entry = Some (EFI_SUCCESS, st')
          /\ Hobs st'
             = Hobs st
               ++ [HobGuidExtension gFdtHobGuid
                     (UINTN (PoolTop st - tree_pages b * EFI_PAGE_SIZE));
                   HobFirmwareVolume PcdRiscVDxeFvBase PcdRiscVDxeFvSize;
                   mmio 0xC0000000 0x40000000]).
Proof.
  intros Entry. unfold Entry.
  split; [by vm_compute |].
  split; [intros r st'; apply Entry_status |].
  split.
  - intros Ho Hs Hf.
    destruct (Z.eq_dec DeviceTreeAddress NULL) as [-> | Hnn].
    { eexists _, _. apply Entry_null. }
    destruct (Blobs st !! DeviceTreeAddress) as [b |] eqn:Hb.
    2:{ eexists _, _. apply Entry_bad_header.
        unfold fdt_check_header. rewrite Hb. by vm_compute. }
    destruct (Z.eq_dec (fdt_header_status b) 0) as [Hh | Hh].
    2:{ eexists _, _. apply Entry_bad_header.
        unfold fdt_check_header. by rewrite Hb. }
    assert (Hp : pool_grants st (tree_pages b)
                 \/ ~ pool_grants st (tree_pages b))
      by (unfold pool_grants; lia).
    destruct Hp as [Hp | Hp].
    2:{ eexists _, _. by apply (Entry_no_pages _ _ _ _ _ b). }
    destruct (GuidHobAvailable st) eqn:Hg.
    + eexists _, _. apply (Entry_success _ _ _ _ _ b); auto.
    + eexists _, _. by apply (Entry_no_announcement _ _ _ _ _ b).
  - intros b Hnn Hb Hh Hs Hp Hg Ho Hf Hpcie Hsd.
    eexists. split; [by apply Entry_success |].
    cbn [Hobs set_Hobs]. unfold phase_records.
    by rewrite (scan_records_none _ _ Hpcie), (scan_records_none _ _ Hsd).
Qed.

Lemma entry_two_outcomes_witness :
  (exists r st',
     PlatformPeimInitialization 0x2000000 0x800000 libfdt_repack 3 BOARD_FDT
       (board_state bare_tree) = Some (r, st'))
  /\ exists st',
       PlatformPeimInitialization 0x2000000 0x800000 libfdt_repack 3
         BOARD_FDT (board_state bare_tree) = Some (EFI_SUCCESS, st')
       /\ Hobs st'
          = [HobGuidExtension gFdtHobGuid 0x8FFFF000;
             HobFirmwareVolume 0x2000000 0x800000;
             mmio 0xC0000000 0x40000000].
Proof.
  destruct (entry_two_outcomes 0x2000000 0x800000 libfdt_repack 3 BOARD_FDT
              (board_state bare_tree)) as (_ & _ & Hret & Hbare).
  split.
  - apply Hret.
    + left. vm_compute. reflexivity.
    + intros b Hb _. vm_compute in Hb. injection Hb as <-. reflexivity.
    + intros b Hb. vm_compute in Hb. injection Hb as <-. simpl. lia.
  - apply (Hbare bare_tree); try reflexivity.
    + discriminate.
    + repeat split; vm_compute; congruence.
    + left. vm_compute. reflexivity.
    + simpl. lia.
Defined.

(** C10: both scans are run on the buffer the entry point was handed, not
    on the copy whose address it announced. Whatever the repacking copy
    leaves in the fresh pages, a successful phase on a sound tree announces
    the address of those pages, which is not the address it was handed; the
    tree at the address it was handed is untouched; and the resource records
    it appends are those that scans of that address yield in the state
    before relocation. *)
Theorem scans_read_original_tree (PcdRiscVDxeFvBase PcdRiscVDxeFvSize : Z)
    (fdt_repack : fdt_blob -> Z -> fdt_blob) (fuel : nat)
    (DeviceTreeAddress : Z) (st : PeiState) (b : fdt_blob) :
  DeviceTreeAddress <> NULL ->
  Blobs st !! DeviceTreeAddress = Some b ->
  fdt_header_status b = 0 ->
  fdt_struct_end b = - FDT_ERR_NOTFOUND ->
  pool_grants st (tree_pages b) ->
  GuidHobAvailable st = true ->
  outside_pool st DeviceTreeAddress ->
  (length (fdt_nodes b) < fuel)%nat ->
  exists st' NewBase pcie sd,
    PlatformPeimInitialization PcdRiscVDxeFvBase PcdRiscVDxeFvSize fdt_repack
      fuel DeviceTreeAddress st = Some (EFI_SUCCESS, st')
    /\ NewBase = PoolTop st'
    /\ NewBase <> DeviceTreeAddress
    /\ (UINT32 (fdt_total b) <= 0x7FFFF000 ->
        Blobs st' !! NewBase
        = Some (fdt_repack b (EFI_PAGES_TO_SIZE (tree_pages b))))
    /\ Blobs st' !! DeviceTreeAddress = Some b
    /\ PopulateIoResources fuel DeviceTreeAddress PCIE_COMPATIBLE st
       = Some (tt, set_Hobs (Hobs st ++ pcie) st)
    /\ PopulateIoResources fuel DeviceTreeAddress SD_COMPATIBLE st
       = Some (tt, set_Hobs (Hobs st ++ sd) st)
    /\ Hobs st'
       = Hobs st
         ++ [HobGuidExtension gFdtHobGuid (UINTN NewBase);
             HobFirmwareVolume PcdRiscVDxeFvBase PcdRiscVDxeFvSize]
         ++ pcie ++ [mmio 0xC0000000 0x40000000] ++ sd.
Proof.
  intros Hnn Hb Hh Hs Hp Hg Ho Hf.
  pose proof (outside_pool_fresh _ _ _ Hp Ho) as Hne.
  destruct (relocated_fields fdt_repack b st) as (_ & _ & Htop & _).
  eexists _, (PoolTop st - tree_pages b * EFI_PAGE_SIZE),
    (scan_records b PCIE_COMPATIBLE), (scan_records b SD_COMPATIBLE).
  split; [by apply Entry_success |].
  cbn [Blobs Hobs PoolTop set_Hobs].
  split; [done |]. split; [done |].
  split; [intros HS; by apply relocated_new_pages |].
  split; [by rewrite relocated_keeps |].
  split; [by apply PopulateIoResources_scan |].
  split; [by apply PopulateIoResources_scan |].
  reflexivity.
Qed.

Lemma scans_read_original_tree_witness :
  exists st' NewBase pcie sd,
    PlatformPeimInitialization 0x2000000 0x800000 erasing_repack 4 BOARD_FDT
      (board_state board_tree) = Some (EFI_SUCCESS, st')
    /\ NewBase = PoolTop st'
    /\ NewBase <> BOARD_FDT
    /\ (UINT32 (fdt_total board_tree) <= 0x7FFFF000 ->
        Blobs st' !! NewBase
        = Some (erasing_repack board_tree
                  (EFI_PAGES_TO_SIZE (tree_pages board_tree))))
    /\ Blobs st' !! BOARD_FDT = Some board_tree
    /\ PopulateIoResources 4 BOARD_FDT PCIE_COMPATIBLE
         (board_state board_tree)
       = Some (tt, set_Hobs (Hobs (board_state board_tree) ++ pcie)
                            (board_state board_tree))
    /\ PopulateIoResources 4 BOARD_FDT SD_COMPATIBLE (board_state board_tree)
       = Some (tt, set_Hobs (Hobs (board_state board_tree) ++ sd)
                            (board_state board_tree))
    /\ Hobs st'
       = Hobs (board_state board_tree)
         ++ [HobGuidExtension gFdtHobGuid (UINTN NewBase);
             HobFirmwareVolume 0x2000000 0x800000]
         ++ pcie ++ [mmio 0xC0000000 0x40000000] ++ sd.
Proof.
  apply (scans_read_original_tree 0x2000000 0x800000 erasing_repack 4
           BOARD_FDT (board_state board_tree) board_tree);
    try reflexivity.
  - discriminate.
  - repeat split; vm_compute; congruence.
  - left. vm_compute. reflexivity.
  - simpl. lia.
Defined.

(** With the erasing copy, a scan of the announced address appends nothing,
    while the phase has recorded the windows of the tree it was handed. *)
Example erased_copy_has_no_windows :
  match PlatformPeimInitialization 0x2000000 0x800000 erasing_repack 4
          BOARD_FDT (board_state board_tree) with
  | Some (r, st') =>
      r = EFI_SUCCESS
      /\ Hobs st'
         = [HobGuidExtension gFdtHobGuid 0x8FFFD000;
            HobFirmwareVolume 0x2000000 0x800000;
            mmio 0x4000000000 0x10000000;
            mmio 0x5000000000 0x1000000;
            mmio 0xC0000000 0x40000000;
            mmio 0x6000000000 0x1000]
      /\ option_map (fun x => Hobs x.2)
           (PopulateIoResources 4 0x8FFFD000 PCIE_COMPATIBLE st')
         = Some (Hobs st')
  | None => False
  end.
Proof. vm_compute. repeat split; reflexivity. Qed.

(** * Further properties of the Normalizer *)

(** X1: whatever base and size it is given, the Normalizer returns, leaves
    the records already in the store in place and appends one record of the
    memory-mapped I/O type with the attributes present, initialized,
    uncacheable and tested; the base is recorded as given (it is not
    aligned), and the recorded length is a multiple of the page size below
    2^64, also when the rounding wraps. *)
Theorem normalizer_record_shape (MemoryBase MemorySize : Z) (st : PeiState) :
  exists s,
    AddIoMemoryBaseSizeHob MemoryBase MemorySize st
    = Some (tt, set_Hobs
                  (Hobs st
                   ++ [HobResourceDescriptor EFI_RESOURCE_MEMORY_MAPPED_IO
                         (Z.lor (Z.lor (Z.lor EFI_RESOURCE_ATTRIBUTE_PRESENT
                                          EFI_RESOURCE_ATTRIBUTE_INITIALIZED)
                                   EFI_RESOURCE_ATTRIBUTE_UNCACHEABLE)
                            EFI_RESOURCE_ATTRIBUTE_TESTED)
                         MemoryBase s]) st)
    /\ s mod EFI_PAGE_SIZE = 0
    /\ 0 <= s < 2 ^ 64.
Proof.
  destruct (io_record_aligned MemoryBase MemorySize)
    as (base & s & Heq & Hm & Hr).
  injection Heq as <- <-.
  eexists. split; [reflexivity | by split].
Qed.

(** * Further properties of the Scanner *)

(** X2: a scan that returns, on any buffer and in any state, has only
    appended records to the store: the records that were there are kept in
    place, every new record is a memory-mapped I/O record with the fixed
    attributes and a page-aligned length, and the pool, the buffers and the
    announcement slot are as before. *)
Theorem scan_only_appends_io_records (FdtBase : Z) (Compatible : string)
    (fuel : nat) (st st' : PeiState) :
  PopulateIoResources fuel FdtBase Compatible st = Some (tt, st') ->
  exists l,
    Hobs st' = Hobs st ++ l
    /\ Forall aligned_io_record l
    /\ PoolTop st' = PoolTop st
    /\ PoolPages st' = PoolPages st
    /\ Blobs st' = Blobs st
    /\ GuidHobAvailable st' = GuidHobAvailable st.
Proof.
  intros H. apply PopulateIoResources_appends in H as (l & -> & Hl).
  exists l. by repeat split.
Qed.

Lemma scan_only_appends_io_records_witness :
  exists l,
    Hobs (set_Hobs [mmio 0x6000000000 0x1000] (board_state board_tree))
    = Hobs (board_state board_tree) ++ l
    /\ Forall aligned_io_record l
    /\ PoolTop (set_Hobs [mmio 0x6000000000 0x1000]
                         (board_state board_tree))
       = PoolTop (board_state board_tree)
    /\ PoolPages (set_Hobs [mmio 0x6000000000 0x1000]
                           (board_state board_tree))
       = PoolPages (board_state board_tree)
    /\ Blobs (set_Hobs [mmio 0x6000000000 0x1000] (board_state board_tree))
       = Blobs (board_state board_tree)
    /\ GuidHobAvailable (set_Hobs [mmio 0x6000000000 0x1000]
                                  (board_state board_tree))
       = GuidHobAvailable (board_state board_tree).
Proof.
  apply (scan_only_appends_io_records BOARD_FDT SD_COMPATIBLE 4
           (board_state board_tree)).
  vm_compute. reflexivity.
Defined.

(** X3: a compatible node of a sound tree that has no reg property is
    skipped: the scan appends nothing for it and goes on to the nodes after
    it. *)
Theorem scan_skips_node_without_reg (FdtBase : Z) (Compatible : string)
    (b : fdt_blob) (fuel : nat) (st : PeiState)
    (pre post : list fdt_node) (n : fdt_node) :
  Blobs st !! FdtBase = Some b ->
  fdt_header_status b = 0 ->
  fdt_struct_end b = - FDT_ERR_NOTFOUND ->
  (length (fdt_nodes b) < fuel)%nat ->
  fdt_nodes b = pre ++ n :: post ->
  fdt_node_check_compatible n Compatible = true ->
  fdt_find_prop n "reg" = None ->
  PopulateIoResources fuel FdtBase Compatible st
  = Some (tt, set_Hobs
                (Hobs st
                 ++ flat_map (node_records b Compatible) pre
                 ++ flat_map (node_records b Compatible) post) st).
Proof.
  intros Hb Hh Hs Hf Hn Hc Hp.
  rewrite (PopulateIoResources_scan _ _ b) by done.
  rewrite (scan_records_split b Compatible pre post n Hn).
  unfold node_records at 2. by rewrite Hc, Hp.
Qed.

Lemma scan_skips_node_without_reg_witness :
  PopulateIoResources 4 BOARD_FDT SD_COMPATIBLE (board_state regless_tree)
  = Some (tt, set_Hobs
                (Hobs (board_state regless_tree)
                 ++ flat_map (node_records regless_tree SD_COMPATIBLE)
                      [ {| node_compatible := ["sophgo,sg2042"];
                           node_props := [] |} ]
                 ++ flat_map (node_records regless_tree SD_COMPATIBLE)
                      [ {| node_compatible := ["bitmain,bm-sd"];
                           node_props := [reg_prop 48 16] |} ])
                (board_state regless_tree)).
Proof.
  apply (scan_skips_node_without_reg BOARD_FDT SD_COMPATIBLE regless_tree 4
           (board_state regless_tree) _ _
           {| node_compatible := ["bitmain,bm-sd"]; node_props := [] |});
    try reflexivity.
  simpl. lia.
Defined.

(** X4: however long the reg property of a compatible node of a sound tree
    is beyond four words, the scan appends two records for the node and no
    more: the records of the first and of the second pair of words; the
    words after the fourth take no part. *)
Theorem scan_ignores_words_after_fourth (FdtBase : Z) (Compatible : string)
    (b : fdt_blob) (fuel : nat) (st : PeiState)
    (pre post : list fdt_node) (n : fdt_node) (p : fdt_property) :
  Blobs st !! FdtBase = Some b ->
  fdt_header_status b = 0 ->
  fdt_struct_end b = - FDT_ERR_NOTFOUND ->
  (length (fdt_nodes b) < fuel)%nat ->
  fdt_nodes b = pre ++ n :: post ->
  fdt_node_check_compatible n Compatible = true ->
  fdt_find_prop n "reg" = Some p ->
  32 < prop_len p < 2 ^ 31 ->
  PopulateIoResources fuel FdtBase Compatible st
  = Some (tt, set_Hobs
                (Hobs st
                 ++ flat_map (node_records b Compatible) pre
                 ++ [io_record (reg_word b p 0) (reg_word b p 1);
                     io_record (reg_word b p 2) (reg_word b p 3)]
                 ++ flat_map (node_records b Compatible) post) st).
Proof.
  intros Hb Hh Hs Hf Hn Hc Hp Hl.
  rewrite (PopulateIoResources_scan _ _ b) by done.
  rewrite (scan_records_split b Compatible pre post n Hn).
  rewrite (node_records_words b Compatible n p) by (done || lia).
  destruct (Z.gtb_spec (prop_len p) 16); [done | lia].
Qed.

Lemma scan_ignores_words_after_fourth_witness :
  PopulateIoResources 3 BOARD_FDT PCIE_COMPATIBLE (board_state wide_tree)
  = Some (tt, set_Hobs
                (Hobs (board_state wide_tree)
                 ++ flat_map (node_records wide_tree PCIE_COMPATIBLE)
                      [ {| node_compatible := ["sophgo,sg2042"];
                           node_props := [] |} ]
                 ++ [io_record (reg_word wide_tree (reg_prop 16 48) 0)
                               (reg_word wide_tree (reg_prop 16 48) 1);
                     io_record (reg_word wide_tree (reg_prop 16 48) 2)
                               (reg_word wide_tree (reg_prop 16 48) 3)]
                 ++ flat_map (node_records wide_tree PCIE_COMPATIBLE) [])
                (board_state wide_tree)).
Proof.
  apply (scan_ignores_words_after_fourth BOARD_FDT PCIE_COMPATIBLE wide_tree
           3 (board_state wide_tree) _ _
           {| node_compatible := ["sophgo,cdns-pcie-host"];
              node_props := [reg_prop 16 48] |}
           (reg_prop 16 48)); try reflexivity.
  - simpl. lia.
  - simpl. lia.
Defined.

Lemma node_records_yields (b : fdt_blob) (C : string) (n : fdt_node) :
  node_yields b C n (node_records b C n).
Proof.
  unfold node_yields, scanned_node, node_records.
  destruct (fdt_node_check_compatible n C); [| done].
  destruct (fdt_find_prop n "reg") as [p |]; [| done].
  cbn [andb]. exists p. split; [done |].
  destruct (UINTN (prop_len p) >? 16); [by right | by left].
Qed.

Lemma nodes_records_yield (b : fdt_blob) (C : string) (l : list fdt_node) :
  Forall2 (node_yields b C) l (map (node_records b C) l).
Proof.
  induction l as [| n l IH]; cbn [map]; constructor; [| done].
  apply node_records_yields.
Qed.

(** X5: a scan of a sound tree returns, and what it appends splits into one
    list per node of the tree, in the order of the tree: for a node that is
    compatible and has a reg property, the record of the first pair of
    words of that property, alone or followed by the record of its second
    pair (one or two records); for any other node, nothing. When no node is
    compatible with the scanned string the state is returned as it was. *)
Theorem scan_records_per_node (FdtBase : Z) (Compatible : string)
    (b : fdt_blob) (fuel : nat) (st : PeiState) :
  Blobs st !! FdtBase = Some b ->
  fdt_header_status b = 0 ->
  fdt_struct_end b = - FDT_ERR_NOTFOUND ->
  (length (fdt_nodes b) < fuel)%nat ->
  exists per_node : list (list Hob),
    Forall2 (node_yields b Compatible) (fdt_nodes b) per_node
    /\ PopulateIoResources fuel FdtBase Compatible st
       = Some (tt, set_Hobs (Hobs st ++ concat per_node) st)
    /\ (List.filter (fun n => fdt_node_check_compatible n Compatible)
                    (fdt_nodes b) = [] ->
        PopulateIoResources fuel FdtBase Compatible st = Some (tt, st)).
Proof.
  intros Hb Hh Hs Hf.
  exists (map (node_records b Compatible) (fdt_nodes b)).
  split; [apply nodes_records_yield |].
  split.
  - rewrite <- flat_map_concat_map. by apply PopulateIoResources_scan.
  - intros Hnone. rewrite (PopulateIoResources_scan _ _ b) by done.
    rewrite (scan_records_none _ _ Hnone). by rewrite set_Hobs_same.
Qed.

Lemma scan_records_per_node_witness :
  exists per_node : list (list Hob),
    Forall2 (node_yields board_tree PCIE_COMPATIBLE) (fdt_nodes board_tree)
            per_node
    /\ PopulateIoResources 4 BOARD_FDT PCIE_COMPATIBLE
         (board_state board_tree)
       = Some (tt, set_Hobs (Hobs (board_state board_tree)
                             ++ concat per_node) (board_state board_tree))
    /\ (List.filter (fun n => fdt_node_check_compatible n PCIE_COMPATIBLE)
                    (fdt_nodes board_tree) = [] ->
        PopulateIoResources 4 BOARD_FDT PCIE_COMPATIBLE
          (board_state board_tree)
        = Some (tt, board_state board_tree)).
Proof.
  apply (scan_records_per_node BOARD_FDT PCIE_COMPATIBLE board_tree 4
           (board_state board_tree)); try reflexivity.
  simpl. lia.
Defined.

Lemma bad_header_answers (m : gmap Z fdt_blob) (fdt : Z) :
  fdt_check_header m fdt <> 0 ->
  (forall nodeoffset name,
     fdt_getprop m fdt nodeoffset name = (None, fdt_check_header m fdt))
  /\ (forall startoffset compatible,
        fdt_node_offset_by_compatible m fdt startoffset compatible
        = fdt_check_header m fdt).
Proof.
  unfold fdt_check_header, fdt_getprop, fdt_node_offset_by_compatible.
  intros H. destruct (m !! fdt) as [b |]; [| done].
  destruct (Z.eqb_spec (fdt_header_status b) 0); done.
Qed.

Lemma PopulateIoResources_while_bad_header (FdtBase : Z)
    (Compatible : string) (st : PeiState) :
  fdt_check_header (Blobs st) FdtBase <> 0 ->
  fdt_check_header (Blobs st) FdtBase <> - FDT_ERR_NOTFOUND ->
  forall (fuel : nat) (Node : Z),
    Node <> - FDT_ERR_NOTFOUND ->
    PopulateIoResources_while fuel FdtBase Compatible Node st = None.
Proof.
  intros H0 H1. destruct (bad_header_answers _ _ H0) as [Hget Hnext].
  induction fuel as [| fuel IH]; intros Node HN; [done |].
  cbn [PopulateIoResources_while].
  destruct (Z.eqb_spec Node (- FDT_ERR_NOTFOUND)); [done |].
  unfold bind at 1, gets at 1. rewrite Hget.
  unfold bind at 1, ret. unfold bind at 1, gets at 1. rewrite Hnext.
  by apply IH.
Qed.

(** X6: the loop of the scan ends only on the answer "not found". On a
    buffer whose header does not validate, libfdt answers the header error
    to every query, so the scan does not return, whatever the fuel. (The
    entry point validates the header before it scans.) *)
Theorem scan_of_unsound_buffer_diverges (FdtBase : Z) (Compatible : string)
    (st : PeiState) (fuel : nat) :
  fdt_check_header (Blobs st) FdtBase <> 0 ->
  fdt_check_header (Blobs st) FdtBase <> - FDT_ERR_NOTFOUND ->
  PopulateIoResources fuel FdtBase Compatible st = None.
Proof.
  intros H0 H1. unfold PopulateIoResources, bind at 1, gets at 1.
  destruct (bad_header_answers _ _ H0) as [_ Hnext]. rewrite Hnext.
  by apply PopulateIoResources_while_bad_header.
Qed.

Lemma scan_of_unsound_buffer_diverges_witness :
  PopulateIoResources 1000 BOARD_FDT SD_COMPATIBLE (board_state corrupt_tree)
  = None.
Proof.
  apply (scan_of_unsound_buffer_diverges BOARD_FDT SD_COMPATIBLE
           (board_state corrupt_tree) 1000);
    vm_compute; discriminate.
Defined.

(** X7: what a scan appends depends on the tree in the scanned buffer only,
    not on the records already in the store, on the pool or on other
    buffers; hence two scans in a row append what each appends on its own,
    one list after the other, and a repeated scan repeats its records. *)
Theorem scans_compose (FdtBase : Z) (C1 C2 : string) (b : fdt_blob)
    (fuel : nat) (st1 st2 : PeiState) :
  Blobs st1 !! FdtBase = Some b ->
  Blobs st2 !! FdtBase = Some b ->
  fdt_header_status b = 0 ->
  fdt_struct_end b = - FDT_ERR_NOTFOUND ->
  (length (fdt_nodes b) < fuel)%nat ->
  exists recs1 recs2,
    PopulateIoResources fuel FdtBase C1 st1
    = Some (tt, set_Hobs (Hobs st1 ++ recs1) st1)
    /\ PopulateIoResources fuel FdtBase C1 st2
       = Some (tt, set_Hobs (Hobs st2 ++ recs1) st2)
    /\ PopulateIoResources fuel FdtBase C2 st1
       = Some (tt, set_Hobs (Hobs st1 ++ recs2) st1)
    /\ bind (PopulateIoResources fuel FdtBase C1)
            (fun _ => PopulateIoResources fuel FdtBase C2) st1
       = Some (tt, set_Hobs (Hobs st1 ++ recs1 ++ recs2) st1)
    /\ bind (PopulateIoResources fuel FdtBase C1)
            (fun _ => PopulateIoResources fuel FdtBase C1) st1
       = Some (tt, set_Hobs (Hobs st1 ++ recs1 ++ recs1) st1).
Proof.
  intros Hb1 Hb2 Hh Hs Hf.
  exists (scan_records b C1), (scan_records b C2).
  split; [by apply PopulateIoResources_scan |].
  split; [by apply PopulateIoResources_scan |].
  split; [by apply PopulateIoResources_scan |].
  split; unfold bind; rewrite (PopulateIoResources_scan _ _ b) by done;
    rewrite (PopulateIoResources_scan _ _ b) by done;
    cbn [Hobs set_Hobs]; rewrite set_Hobs_set_Hobs;
    by rewrite <- app_assoc.
Qed.

Lemma scans_compose_witness :
  exists recs1 recs2,
    PopulateIoResources 4 BOARD_FDT PCIE_COMPATIBLE (board_state board_tree)
    = Some (tt, set_Hobs (Hobs (board_state board_tree) ++ recs1)
                         (board_state board_tree))
    /\ PopulateIoResources 4 BOARD_FDT PCIE_COMPATIBLE
         (full_store_state board_tree)
       = Some (tt, set_Hobs (Hobs (full_store_state board_tree) ++ recs1)
                            (full_store_state board_tree))
    /\ PopulateIoResources 4 BOARD_FDT SD_COMPATIBLE (board_state board_tree)
       = Some (tt, set_Hobs (Hobs (board_state board_tree) ++ recs2)
                            (board_state board_tree))
    /\ bind (PopulateIoResources 4 BOARD_FDT PCIE_COMPATIBLE)
            (fun _ => PopulateIoResources 4 BOARD_FDT SD_COMPATIBLE)
            (board_state board_tree)
       = Some (tt, set_Hobs (Hobs (board_state board_tree)
                             ++ recs1 ++ recs2) (board_state board_tree))
    /\ bind (PopulateIoResources 4 BOARD_FDT PCIE_COMPATIBLE)
            (fun _ => PopulateIoResources 4 BOARD_FDT PCIE_COMPATIBLE)
            (board_state board_tree)
       = Some (tt, set_Hobs (Hobs (board_state board_tree)
                             ++ recs1 ++ recs1) (board_state board_tree)).
Proof.
  apply (scans_compose BOARD_FDT PCIE_COMPATIBLE SD_COMPATIBLE board_tree 4
           (board_state board_tree) (full_store_state board_tree));
    try reflexivity.
  simpl. lia.
Defined.

(** * Further properties of the entry point *)

Lemma AllocatePages_Hobs (Pages : Z) (st st1 : PeiState) (a : Z) :
  AllocatePages Pages st = Some (a, st1) -> Hobs st1 = Hobs st.
Proof.
  unfold AllocatePages. destruct (_ || _); intros H; by injection H as _ <-.
Qed.

Lemma fdt_open_into_Hobs (fdt_repack : fdt_blob -> Z -> fdt_blob)
    (fdt buf bufsize : Z) (st st1 : PeiState) (e : Z) :
  fdt_open_into fdt_repack fdt buf bufsize st = Some (e, st1) ->
  Hobs st1 = Hobs st.
Proof.
  unfold fdt_open_into. destruct (Blobs st !! fdt) as [b |].
  - destruct (fdt_header_status b =? 0); [destruct (bufsize <? _) |];
      intros H; by injection H as _ <-.
  - intros H; by injection H as _ <-.
Qed.

(** X8: when the pool cannot hand out the pages that cover a sound tree,
    the entry point answers the failure status and leaves the state as it
    found it: nothing is allocated, copied or recorded. *)
Theorem entry_fails_without_pages (PcdRiscVDxeFvBase PcdRiscVDxeFvSize : Z)
    (fdt_repack : fdt_blob -> Z -> fdt_blob) (fuel : nat)
    (DeviceTreeAddress : Z) (st : PeiState) (b : fdt_blob) :
  DeviceTreeAddress <> NULL ->
  Blobs st !! DeviceTreeAddress = Some b ->
  fdt_header_status b = 0 ->
  ~ pool_grants st
      (pages_covering (fdt_totalsize (Blobs st) DeviceTreeAddress)) ->
  PlatformPeimInitialization PcdRiscVDxeFvBase PcdRiscVDxeFvSize fdt_repack
    fuel DeviceTreeAddress st = Some (EFI_UNSUPPORTED, st).
Proof.
  intros Hnn Hb Hh Hp. apply (Entry_no_pages _ _ _ _ _ b); try done.
  rewrite tree_pages_ceil. unfold fdt_totalsize in Hp. by rewrite Hb in Hp.
Qed.

Lemma entry_fails_without_pages_witness :
  PlatformPeimInitialization 0x2000000 0x800000 libfdt_repack 4 BOARD_FDT
    (starved_state board_tree)
  = Some (EFI_UNSUPPORTED, starved_state board_tree).
Proof.
  apply (entry_fails_without_pages 0x2000000 0x800000 libfdt_repack 4
           BOARD_FDT (starved_state board_tree) board_tree);
    try reflexivity.
  - discriminate.
  - vm_compute. intros [[_ H] _]. apply H. reflexivity.
Defined.

(** X9: when the announcement record cannot be created, the entry point
    answers the failure status and the record store is as it was, but the
    relocation is not undone: the pages stay taken from the pool, and the
    copy stays in them when it was made (declared size at most
    0x7FFFF000). *)
Theorem entry_keeps_pages_without_announcement
    (PcdRiscVDxeFvBase PcdRiscVDxeFvSize : Z)
    (fdt_repack : fdt_blob -> Z -> fdt_blob) (fuel : nat)
    (DeviceTreeAddress : Z) (st : PeiState) (b : fdt_blob) :
  DeviceTreeAddress <> NULL ->
  Blobs st !! DeviceTreeAddress = Some b ->
  fdt_header_status b = 0 ->
  pool_grants st (tree_pages b) ->
  GuidHobAvailable st = false ->
  exists st',
    PlatformPeimInitialization PcdRiscVDxeFvBase PcdRiscVDxeFvSize fdt_repack
      fuel DeviceTreeAddress st = Some (EFI_UNSUPPORTED, st')
    /\ Hobs st' = Hobs st
    /\ PoolPages st' = PoolPages st - tree_pages b
    /\ PoolTop st' = PoolTop st - tree_pages b * EFI_PAGE_SIZE
    /\ 0 < tree_pages b
    /\ (UINT32 (fdt_total b) <= 0x7FFFF000 ->
        Blobs st' !! PoolTop st'
        = Some (fdt_repack b (EFI_PAGES_TO_SIZE (tree_pages b)))).
Proof.
  intros Hnn Hb Hh Hp Hg. exists (relocated fdt_repack b st).
  destruct (relocated_fields fdt_repack b st) as (Hh1 & _ & Htop & Hpg).
  split; [by apply Entry_no_announcement |].
  split; [done |]. split; [done |]. split; [done |].
  split; [by destruct Hp as [[? _] _] |].
  intros HS. rewrite Htop. by apply relocated_new_pages.
Qed.

Lemma entry_keeps_pages_without_announcement_witness :
  exists st',
    PlatformPeimInitialization 0x2000000 0x800000 libfdt_repack 4 BOARD_FDT
      (full_store_state board_tree) = Some (EFI_UNSUPPORTED, st')
    /\ Hobs st' = Hobs (full_store_state board_tree)
    /\ PoolPages st'
       = PoolPages (full_store_state board_tree) - tree_pages board_tree
    /\ PoolTop st'
       = PoolTop (full_store_state board_tree)
         - tree_pages board_tree * EFI_PAGE_SIZE
    /\ 0 < tree_pages board_tree
    /\ (UINT32 (fdt_total board_tree) <= 0x7FFFF000 ->
        Blobs st' !! PoolTop st'
        = Some (libfdt_repack board_tree
                  (EFI_PAGES_TO_SIZE (tree_pages board_tree)))).
Proof.
  apply (entry_keeps_pages_without_announcement 0x2000000 0x800000
           libfdt_repack 4 BOARD_FDT (full_store_state board_tree)
           board_tree); try reflexivity.
  - discriminate.
  - repeat split; vm_compute; congruence.
Defined.

Lemma AllocatePages_result (Pages : Z) (st st1 : PeiState) (a : Z) :
  AllocatePages Pages st = Some (a, st1) ->
  a <> NULL ->
  PoolTop st1 = a /\ 0 < a < PoolTop st.
Proof.
  unfold AllocatePages, NULL, EFI_PAGE_SIZE.
  destruct (Z.leb_spec Pages 0) as [? | Hpos];
    [intros E; by injection E as <- _ |].
  destruct (Z.ltb_spec (PoolPages st) Pages) as [? | Hle];
    [intros E; by injection E as <- _ |].
  destruct (Z.leb_spec (PoolTop st - Pages * 0x1000) 0) as [? | Hnew];
    [intros E; by injection E as <- _ |].
  cbn [orb]. intros E _. injection E as <- <-. cbn [PoolTop set_Pool]. lia.
Qed.

Lemma fdt_open_into_PoolTop (fdt_repack : fdt_blob -> Z -> fdt_blob)
    (fdt buf bufsize : Z) (st st1 : PeiState) (e : Z) :
  fdt_open_into fdt_repack fdt buf bufsize st = Some (e, st1) ->
  PoolTop st1 = PoolTop st.
Proof.
  unfold fdt_open_into. destruct (Blobs st !! fdt) as [b |].
  - destruct (fdt_header_status b =? 0); [destruct (bufsize <? _) |];
      intros H; by injection H as _ <-.
  - intros H; by injection H as _ <-.
Qed.

(** X10: the record store after the entry point, for every input on which
    it returns, when the pool lies in the 64-bit address space. On the
    failure status the store is as it was. On success the records that were
    there are kept in place and are followed by the announcement of the
    address of the fresh pages (the new top of the pool, which is not NULL),
    then the firmware-volume record, then memory-mapped I/O records only,
    all with page-aligned lengths, the fixed inbound window among them. *)
Theorem entry_all_or_nothing (PcdRiscVDxeFvBase PcdRiscVDxeFvSize : Z)
    (fdt_repack : fdt_blob -> Z -> fdt_blob) (fuel : nat)
    (DeviceTreeAddress : Z) (st : PeiState) (r : EFI_STATUS)
    (st' : PeiState) :
  PoolTop st <= 2 ^ 64 ->
  PlatformPeimInitialization PcdRiscVDxeFvBase PcdRiscVDxeFvSize fdt_repack
    fuel DeviceTreeAddress st = Some (r, st') ->
  (r = EFI_UNSUPPORTED /\ Hobs st' = Hobs st)
  \/ (r = EFI_SUCCESS
      /\ PoolTop st' <> NULL
      /\ 0 < PoolTop st' < PoolTop st
      /\ exists l,
           Hobs st'
           = Hobs st
             ++ HobGuidExtension gFdtHobGuid (PoolTop st')
                :: HobFirmwareVolume PcdRiscVDxeFvBase PcdRiscVDxeFvSize
                :: l
           /\ Forall aligned_io_record l
           /\ In (mmio 0xC0000000 0x40000000) l).
Proof.
  unfold PlatformPeimInitialization. intros Htop64 H.
  destruct (DeviceTreeAddress =? NULL);
    [injection H as <- <-; by left |].
  unfold bind at 1, gets at 1 in H.
  destruct (negb _); [injection H as <- <-; by left |].
  unfold bind at 1, gets at 1 in H. unfold bind at 1 in H.
  destruct (AllocatePages _ st) as [[NewBase st1] |] eqn:Ha; [| done].
  pose proof (AllocatePages_result _ _ _ _ Ha) as Hnew.
  apply AllocatePages_Hobs in Ha.
  destruct (Z.eqb_spec NewBase NULL) as [| Hnn];
    [injection H as <- <-; by left |].
  destruct (Hnew Hnn) as [Htop1 Hrange].
  unfold bind at 1 in H.
  destruct (fdt_open_into _ _ _ _ st1) as [[e st2] |] eqn:Ho; [| done].
  pose proof (fdt_open_into_PoolTop _ _ _ _ _ _ _ Ho) as Htop2.
  apply fdt_open_into_Hobs in Ho.
  unfold bind at 1, BuildGuidHob in H.
  destruct (GuidHobAvailable st2).
  2:{ injection H as <- <-. left. split; [done | congruence]. }
  unfold bind at 1, store_guid_data, modify in H.
  unfold bind at 1, BuildFvHob, modify in H.
  cbn [Hobs set_Hobs] in H. rewrite set_Hobs_set_Hobs in H.
  rewrite alter_app_r_alt in H by lia.
  rewrite Nat.sub_diag in H. cbn [alter list_alter] in H.
  unfold bind at 1 in H.
  destruct (PopulateIoResources fuel DeviceTreeAddress _ _)
    as [[[] st4] |] eqn:H1; [| done].
  apply PopulateIoResources_appends in H1 as (l1 & -> & Hl1).
  unfold bind at 1 in H. rewrite AddIoMemoryBaseSizeHob_eq in H.
  unfold bind at 1 in H.
  destruct (PopulateIoResources fuel DeviceTreeAddress _ _)
    as [[[] st5] |] eqn:H2; [| done].
  apply PopulateIoResources_appends in H2 as (l2 & -> & Hl2).
  injection H as <- <-. right. split; [done |].
  cbn [Hobs PoolTop set_Hobs]. rewrite Htop2, Htop1.
  split; [done |]. split; [done |].
  exists (l1 ++ [io_record 0xC0000000 0x40000000] ++ l2).
  rewrite Ho, Ha. rewrite UINTN_small by lia.
  split; [by rewrite <- !app_assoc |].
  split.
  - apply Forall_app. split; [done |].
    apply Forall_app. split; [| done].
    repeat constructor. apply io_record_aligned.
  - apply in_or_app. right. by left.
Qed.

Lemma entry_all_or_nothing_witness :
  ((EFI_UNSUPPORTED = EFI_UNSUPPORTED
    /\ Hobs (relocated libfdt_repack board_tree
               (full_store_state board_tree))
       = Hobs (full_store_state board_tree))
   \/ (EFI_UNSUPPORTED = EFI_SUCCESS
       /\ PoolTop (relocated libfdt_repack board_tree
                     (full_store_state board_tree)) <> NULL
       /\ 0 < PoolTop (relocated libfdt_repack board_tree
                         (full_store_state board_tree))
          < PoolTop (full_store_state board_tree)
       /\ exists l,
            Hobs (relocated libfdt_repack board_tree
                    (full_store_state board_tree))
            = Hobs (full_store_state board_tree)
              ++ HobGuidExtension gFdtHobGuid
                   (PoolTop (relocated libfdt_repack board_tree
                               (full_store_state board_tree)))
                 :: HobFirmwareVolume 0x2000000 0x800000 :: l
            /\ Forall aligned_io_record l
            /\ In (mmio 0xC0000000 0x40000000) l))
  /\ ((EFI_SUCCESS = EFI_UNSUPPORTED
       /\ Hobs (set_Hobs (phase_records 0x2000000 0x800000 board_tree
                            (board_state board_tree))
                         (relocated libfdt_repack board_tree
                            (board_state board_tree)))
          = Hobs (board_state board_tree))
      \/ (EFI_SUCCESS = EFI_SUCCESS
          /\ PoolTop (set_Hobs (phase_records 0x2000000 0x800000 board_tree
                                  (board_state board_tree))
                               (relocated libfdt_repack board_tree
                                  (board_state board_tree))) <> NULL
          /\ 0 < PoolTop (set_Hobs
                            (phase_records 0x2000000 0x800000 board_tree
                               (board_state board_tree))
                            (relocated libfdt_repack board_tree
                               (board_state board_tree)))
             < PoolTop (board_state board_tree)
          /\ exists l,
               Hobs (set_Hobs (phase_records 0x2000000 0x800000 board_tree
                                 (board_state board_tree))
                              (relocated libfdt_repack board_tree
                                 (board_state board_tree)))
               = Hobs (board_state board_tree)
                 ++ HobGuidExtension gFdtHobGuid
                      (PoolTop (set_Hobs
                                  (phase_records 0x2000000 0x800000
                                     board_tree (board_state board_tree))
                                  (relocated libfdt_repack board_tree
                                     (board_state board_tree))))
                    :: HobFirmwareVolume 0x2000000 0x800000 :: l
               /\ Forall aligned_io_record l
               /\ In (mmio 0xC0000000 0x40000000) l)).
Proof.
  split.
  - apply (entry_all_or_nothing 0x2000000 0x800000 libfdt_repack 4 BOARD_FDT
             (full_store_state board_tree)).
    + vm_compute. discriminate.
    + vm_compute. reflexivity.
  - apply (entry_all_or_nothing 0x2000000 0x800000 libfdt_repack 4 BOARD_FDT
             (board_state board_tree)).
    + vm_compute. discriminate.
    + vm_compute. reflexivity.
Defined.

(** X11: for a tree outside the free pool whose structure block, if its
    header validates, is well formed, and fuel beyond its number of nodes,
    the entry point returns, and it answers success exactly when the
    pointer is not NULL, the header validates, the pool hands out the pages
    that cover the declared size and the announcement record can be
    created; which nodes and properties the tree has plays no part. *)
Theorem entry_success_iff (PcdRiscVDxeFvBase PcdRiscVDxeFvSize : Z)
    (fdt_repack : fdt_blob -> Z -> fdt_blob) (fuel : nat)
    (DeviceTreeAddress : Z) (st : PeiState) :
  outside_pool st DeviceTreeAddress ->
  (forall b, Blobs st !! DeviceTreeAddress = Some b ->
             fdt_header_status b = 0 ->
             fdt_struct_end b = - FDT_ERR_NOTFOUND) ->
  (forall b, Blobs st !! DeviceTreeAddress = Some b ->
             (length (fdt_nodes b) < fuel)%nat) ->
  exists r st',
    PlatformPeimInitialization PcdRiscVDxeFvBase PcdRiscVDxeFvSize fdt_repack
      fuel DeviceTreeAddress st = Some (r, st')
    /\ (r = EFI_SUCCESS
        <-> DeviceTreeAddress <> NULL
            /\ fdt_check_header (Blobs st) DeviceTreeAddress = 0
            /\ pool_grants st
                 (pages_covering
                    (fdt_totalsize (Blobs st) DeviceTreeAddress))
            /\ GuidHobAvailable st = true).
Proof.
  intros Ho Hs Hf.
  pose proof EFI_UNSUPPORTED_not_success as Hne.
  destruct (Z.eq_dec DeviceTreeAddress NULL) as [-> | Hnn].
  { eexists _, _. split; [apply Entry_null |]. split; [done | tauto]. }
  destruct (Z.eq_dec (fdt_check_header (Blobs st) DeviceTreeAddress) 0)
    as [Hh | Hh].
  2:{ eexists _, _. split; [by apply Entry_bad_header |].
      split; [done | tauto]. }
  unfold fdt_check_header, fdt_totalsize in *.
  destruct (Blobs st !! DeviceTreeAddress) as [b |] eqn:Hb; [| done].
  unfold pages_covering. rewrite <- tree_pages_ceil.
  assert (Hp : pool_grants st (tree_pages b)
               \/ ~ pool_grants st (tree_pages b))
    by (unfold pool_grants; lia).
  destruct Hp as [Hp | Hp].
  2:{ eexists _, _. split; [by apply (Entry_no_pages _ _ _ _ _ b) |].
      split; [done | tauto]. }
  destruct (GuidHobAvailable st) eqn:Hg.
  - eexists _, _. split; [apply (Entry_success _ _ _ _ _ b); auto |].
    split; [done | reflexivity].
  - eexists _, _.
    split; [by apply (Entry_no_announcement _ _ _ _ _ b) |].
    split; [done | intros (_ & _ & _ & ?); done].
Qed.

Lemma entry_success_iff_witness :
  exists r st',
    PlatformPeimInitialization 0x2000000 0x800000 libfdt_repack 4 BOARD_FDT
      (board_state board_tree) = Some (r, st')
    /\ (r = EFI_SUCCESS
        <-> BOARD_FDT <> NULL
            /\ fdt_check_header (Blobs (board_state board_tree)) BOARD_FDT
               = 0
            /\ pool_grants (board_state board_tree)
                 (pages_covering
                    (fdt_totalsize (Blobs (board_state board_tree))
                                   BOARD_FDT))
            /\ GuidHobAvailable (board_state board_tree) = true).
Proof.
  apply (entry_success_iff 0x2000000 0x800000 libfdt_repack 4 BOARD_FDT
           (board_state board_tree)).
  - left. vm_compute. reflexivity.
  - intros b Hb _. vm_compute in Hb. injection Hb as <-. reflexivity.
  - intros b Hb. vm_compute in Hb. injection Hb as <-. simpl. lia.
Defined.

(** X12: on a buffer whose header validates but whose structure block is
    corrupt, so that libfdt answers an error other than "not found" past
    the last node it reaches, a scan never returns, whatever the fuel: the
    loop takes the error for a node and restarts the walk at the root. *)
Theorem scan_of_corrupt_structure_diverges (FdtBase : Z)
    (Compatible : string) (b : fdt_blob) (fuel : nat) (st : PeiState) :
  Blobs st !! FdtBase = Some b ->
  fdt_header_status b = 0 ->
  fdt_struct_end b <> - FDT_ERR_NOTFOUND ->
  PopulateIoResources fuel FdtBase Compatible st = None.
Proof. apply PopulateIoResources_corrupt. Qed.

Lemma scan_of_corrupt_structure_diverges_witness :
  PopulateIoResources 1000 BOARD_FDT SD_COMPATIBLE (board_state broken_tree)
  = None.
Proof.
  apply (scan_of_corrupt_structure_diverges BOARD_FDT SD_COMPATIBLE
           broken_tree 1000 (board_state broken_tree)).
  - reflexivity.
  - reflexivity.
  - discriminate.
Defined.


